(** * cs_scanimage: report evaluation, report polling and the exit decision

    A shallow embedding of [cs_scanimage.py].  The Python objects the script
    handles are decoded JSON documents; its methods raise exceptions and
    write log records, sleep, and talk to two HTTP endpoints.  The embedding
    keeps all of that visible: a computation returns a value or raises, and
    carries the sequence of effects it performed. *)

From Stdlib Require Import String Ascii List ZArith Lia Bool DecimalString.
Import ListNotations.

#[local] Set Warnings "-register-all".

Local Open Scope string_scope.
Local Open Scope list_scope.
Local Open Scope Z_scope.

(** ** Python values

    What [json.loads] (behind [requests]' [resp.json()]) can produce:
    [None], [bool], [int], [float], [str], [list] and [dict] with string keys.
    A float is kept as its IEEE-754 binary64 bit pattern; no operation of the
    script looks inside a number.  A [dict] is the list of its items in
    insertion order, looked up from the front.  A [str] is its sequence of
    bytes. *)

Inductive json : Type :=
| JNull
| JBool (b : bool)
| JInt (n : Z)
| JFloat (bits : Z)
| JStr (s : string)
| JArr (items : list json)
| JObj (members : list (string * json)).

Fixpoint lookup (key : string) (members : list (string * json)) : option json :=
  match members with
  | [] => None
  | (k, v) :: rest => if String.eqb k key then Some v else lookup key rest
  end.

(** ** Exceptions *)

Inductive exn : Type :=
| KeyError (key : string)
| TypeError
| AttributeError
| ValueError
| UnboundLocalError (name : string)
| JSONDecodeError
| OSError
| DockerException
| APIError (status : string)
(** [subprocess.CalledProcessError] *)
| CalledProcessError (returncode : Z) (cmd : list string)
(** [Exception(message)], of the class [Exception] itself *)
| PlainException (message : string)
| SystemExit (code : Z).

Inductive result (A : Type) : Type :=
| Ok (a : A)
| Raise (e : exn).

Arguments Ok {A} a.
Arguments Raise {A} e.

Definition is_KeyError (e : exn) : bool :=
  match e with KeyError _ => true | _ => false end.

Definition is_APIError (e : exn) : bool :=
  match e with APIError _ => true | _ => false end.

(** [SystemExit] derives from [BaseException], so [except Exception] lets it
    through; every other exception of the embedding is an [Exception]. *)
Definition is_Exception (e : exn) : bool :=
  match e with SystemExit _ => false | _ => true end.

(** ** Effects *)

Inductive level : Type := DEBUG | INFO | WARNING | ERROR.

Inductive event : Type :=
| Log (lvl : level) (msg : string) (args : list json)
| Sleep (seconds : Z)
| HttpPost (url : string) (data : list (string * string)) (headers : list (string * string))
| HttpGet (url : string) (authorization : string)
| FileWrite (filename : string) (document : json)
(** a log record whose message is an object: [log.info(obj)] *)
| LogObject (lvl : level) (msg : json)
(** [print] of [text] formatted with [args], with [end=end_] *)
| Print (text : string) (args : list json) (end_ : string)
(** [client.images.list(filters={"reference": reference})] *)
| ImagesList (reference : string)
(** [client.images.pull(repository)] *)
| ImagesPull (repository : string)
(** [client.images.get(name)] *)
| ImagesGet (name : string)
(** [image.tag(repository, tag, force=True)] *)
| ImageTag (repository tag : string)
(** [client.login(username, password, registry, reauth=True)] *)
| ClientLogin (username password registry : string)
(** [client.images.push(image, stream=True, decode=True)] *)
| ImagesPush (image : string)
(** [client.push(image, stream=True, decode=True)] *)
| ClientPush (image : string)
(** [subprocess.run(command, ..., check=True)] *)
| Run (command : list string).

(** A computation: its outcome and the effects it performed, oldest first.
    Effects performed before an exception are kept. *)
Definition M (A : Type) : Type := (result A * list event)%type.

Definition ret {A} (a : A) : M A := (Ok a, []).

Definition raise {A} (e : exn) : M A := (Raise e, []).

Definition bind {A B} (m : M A) (f : A -> M B) : M B :=
  match m with
  | (Ok a, t) => let (r, t') := f a in (r, t ++ t')
  | (Raise e, t) => (Raise e, t)
  end.

Definition emit (ev : event) : M unit := (Ok tt, [ev]).

Definition lift {A} (r : result A) : M A := (r, []).

(** The [except] clause that takes an exception: the first whose class
    matches. *)
Fixpoint handler_for {A} (clauses : list ((exn -> bool) * M A)) (e : exn) : option (M A) :=
  match clauses with
  | [] => None
  | (catches, handler) :: rest =>
      if catches e then Some handler else handler_for rest e
  end.

(** [try: body except C1: h1 except C2: h2 ...].  An exception raised by a
    handler is not offered to the other clauses. *)
Definition try_except {A} (body : M A) (clauses : list ((exn -> bool) * M A)) : M A :=
  match body with
  | (Raise e, t) =>
      match handler_for clauses e with
      | Some handler => let (r, t') := handler in (r, t ++ t')
      | None => (Raise e, t)
      end
  | done => done
  end.

Declare Scope py_scope.
Delimit Scope py_scope with py.
Notation "x <- m ;; k" := (bind m (fun x => k))
  (at level 100, m at next level, right associativity) : py_scope.
Notation "m ;; k" := (bind m (fun _ => k))
  (at level 100, right associativity) : py_scope.
Local Open Scope py_scope.

Definition outcome {A} (m : M A) : result A := fst m.
Definition effects {A} (m : M A) : list event := snd m.

(** ** Python primitives on decoded JSON *)

(** [x[key]] for a string key. *)
Definition getitem (x : json) (key : string) : M json :=
  match x with
  | JObj members =>
      match lookup key members with
      | Some v => ret v
      | None => raise (KeyError key)
      end
  | _ => raise TypeError
  end.

(** [x.get(key, default)]: only a [dict] has the method. *)
Definition get (x : json) (key : string) (default : json) : M json :=
  match x with
  | JObj members =>
      match lookup key members with
      | Some v => ret v
      | None => ret default
      end
  | _ => raise AttributeError
  end.

Definition isinstance_dict (x : json) : bool :=
  match x with JObj _ => true | _ => false end.

Definition is_None (x : json) : bool :=
  match x with JNull => true | _ => false end.

Definition lower_ascii (c : ascii) : ascii :=
  let n := nat_of_ascii c in
  if (65 <=? n)%nat && (n <=? 90)%nat then ascii_of_nat (n + 32) else c.

(** [str.lower] on the bytes of a string.  Python lowers by code point; the
    only code points that lower to an ASCII letter are the ASCII capitals and
    the Kelvin sign (to k), and no word the script compares with contains a
    k, so every comparison below comes out as in Python. *)
Fixpoint lower (s : string) : string :=
  match s with
  | EmptyString => EmptyString
  | String c rest => String (lower_ascii c) (lower rest)
  end.

(** [x.lower()]: only a [str] has the method. *)
Definition str_lower (x : json) : M string :=
  match x with
  | JStr s => ret (lower s)
  | _ => raise AttributeError
  end.

Fixpoint chars (s : string) : list json :=
  match s with
  | EmptyString => []
  | String c rest => JStr (String c EmptyString) :: chars rest
  end.

(** [for item in x]: the items a loop visits.  A list gives its elements, a
    dict its keys, a string its characters; nothing else is iterable. *)
Definition iter (x : json) : M (list json) :=
  match x with
  | JArr items => ret items
  | JObj members => ret (map (fun kv => JStr (fst kv)) members)
  | JStr s => ret (chars s)
  | _ => raise TypeError
  end.

(** ['{}'.format(n)] for an [int]. *)
Definition str_of_int (n : Z) : string := NilZero.string_of_int (Z.to_int n).

Definition log (lvl : level) (msg : string) (args : list json) : M unit :=
  emit (Log lvl msg args).

Definition is_TypeError (e : exn) : bool :=
  match e with TypeError => true | _ => false end.

Definition is_AttributeError (e : exn) : bool :=
  match e with AttributeError => true | _ => false end.

(** The string ['\r']. *)
Definition carriage_return : string := String (ascii_of_nat 13) EmptyString.

(** [key in x] for a string key: a key of a mapping, an element of a list, a
    part of a string. *)
Definition contains (key : string) (x : json) : M bool :=
  match x with
  | JObj members =>
      ret (match lookup key members with Some _ => true | None => false end)
  | JArr items =>
      ret (existsb (fun item => match item with
                                | JStr s => String.eqb s key
                                | _ => false
                                end) items)
  | JStr s =>
      ret (match index 0 key s with Some _ => true | None => false end)
  | _ => raise TypeError
  end.

(** [prefix + x] for a string prefix. *)
Definition str_add (prefix : string) (x : json) : M string :=
  match x with
  | JStr s => ret (prefix ++ s)%string
  | _ => raise TypeError
  end.

(** [x == s] for a string [s]. *)
Definition equals_str (x : json) (s : string) : bool :=
  match x with
  | JStr s' => String.eqb s' s
  | _ => false
  end.

(** The strings of [items], one after the other; an item that is not a
    string raises [TypeError]. *)
Fixpoint concat_strs (items : list json) : M string :=
  match items with
  | [] => ret ""
  | JStr s :: rest => tail <- concat_strs rest ;; ret (s ++ tail)%string
  | _ :: _ => raise TypeError
  end.

(** [''.join(x)] *)
Definition str_join (x : json) : M string :=
  items <- iter x ;;
  concat_strs items.

(** ** class ScanStatusCode(Enum) *)

Inductive ScanStatusCode : Type :=
| Vulnerability | Malware | Secrets | Success | ScriptFailure.

Definition value (c : ScanStatusCode) : Z :=
  match c with
  | Vulnerability => 1
  | Malware => 2
  | Secrets => 3
  | Success => 0
  | ScriptFailure => 10
  end.

(** ** class ScanReport(dict) *)

Definition ScanReport : Type := list (string * json).

Definition vuln_str_key_1 : string := "Vulnerabilities".
Definition details_str_key : string := "Details".
Definition detect_str_key : string := "Detections".
Definition type_malware : string := "malware".
Definition type_secret : string := "secret".
Definition type_misconfig : string := "misconfiguration".
Definition type_cis : string := "cis".

(** Lines 186-195 of [get_alerts_vuln]: the severity of one record's
    [details]. *)
Definition resolve_severity (details : json) : M json :=
  if isinstance_dict details then
    cvss_v3 <- get details "cvss_v3_score" (JObj []) ;;
    severity <- get cvss_v3 "severity" JNull ;;
    severity <- (if is_None severity then
                   cvss_v2 <- get details "cvss_v2_score" (JObj []) ;;
                   get cvss_v2 "severity" JNull
                 else ret severity) ;;
    (if is_None severity then get details "severity" (JStr "")
     else ret severity)
  else ret (JStr "").

(** The body of the loop of [get_alerts_vuln]: one record, the running score
    in, the running score out. *)
Definition vuln_step (vulnerability : json) (vuln_score : Z) : M Z :=
  let critical_score := 2000 in
  let high_score := 500 in
  let medium_score := 100 in
  let low_score := 20 in
  vuln <- getitem vulnerability "Vulnerability" ;;
  cve <- get vuln "CVEID" (JStr "CVE-unknown") ;;
  details <- get vuln "Details" (JObj []) ;;
  severity <- resolve_severity details ;;
  product <- get vuln "Product" (JObj []) ;;
  affects <- get product "PackageSource" product ;;
  log WARNING "%-8s %-16s Vulnerability detected affecting %s" [severity; cve; affects] ;;
  s <- str_lower severity ;;
  let vuln_score := if String.eqb s "low" then vuln_score + low_score else vuln_score in
  s <- str_lower severity ;;
  let vuln_score := if String.eqb s "medium" then vuln_score + medium_score else vuln_score in
  s <- str_lower severity ;;
  let vuln_score := if String.eqb s "high" then vuln_score + high_score else vuln_score in
  s <- str_lower severity ;;
  let vuln_score := if String.eqb s "critical" then vuln_score + critical_score else vuln_score in
  ret vuln_score.

Fixpoint vuln_loop (vulnerabilities : list json) (vuln_score : Z) : M Z :=
  match vulnerabilities with
  | [] => ret vuln_score
  | vulnerability :: rest =>
      vuln_score <- vuln_step vulnerability vuln_score ;;
      vuln_loop rest vuln_score
  end.

Definition get_alerts_vuln (self : ScanReport) : M Z :=
  log INFO "Searching for vulnerabilities in scan report..." [] ;;
  vulnerabilities <- getitem (JObj self) vuln_str_key_1 ;;
  if is_None vulnerabilities then ret 0
  else
    items <- iter vulnerabilities ;;
    vuln_loop items 0.

(** One iteration of the loop the three detection scans share: the [try]
    block and its [except KeyError: continue].  [hit] is the test on the
    lowered type, [alert] the record logged on a hit and [code] the value
    [det_code] takes before the [break].  The answer is [Some code] for a
    [break] and [None] to go on to the next detection. *)
Definition detection_step (hit : string -> bool) (alert : event) (code : Z)
    (detection : json) : M (option Z) :=
  try_except
    (d <- getitem detection "Detection" ;;
     ty <- getitem d "Type" ;;
     s <- str_lower ty ;;
     if hit s then emit alert ;; ret (Some code) else ret None)
    [(is_KeyError, ret None)].

Fixpoint detection_loop (hit : string -> bool) (alert : event) (code : Z)
    (detections : list json) (det_code : Z) : M Z :=
  match detections with
  | [] => ret det_code
  | detection :: rest =>
      broke <- detection_step hit alert code detection ;;
      match broke with
      | Some det_code => ret det_code
      | None => detection_loop hit alert code rest det_code
      end
  end.

Definition scan_detections (self : ScanReport) (hit : string -> bool)
    (alert : event) (code : Z) : M Z :=
  detections <- getitem (JObj self) detect_str_key ;;
  if is_None detections then ret 0
  else
    items <- iter detections ;;
    detection_loop hit alert code items 0.

Definition malware_alert : event := Log WARNING "Alert: Malware found" [].
Definition secrets_alert : event := Log ERROR "Alert: Leaked secrets detected" [].
Definition misconfig_alert : event := Log WARNING "Alert: Misconfiguration found" [].

Definition get_alerts_malware (self : ScanReport) : M Z :=
  log INFO "Searching for malware in scan report..." [] ;;
  scan_detections self (fun s => String.eqb s type_malware)
    malware_alert (value Malware).

Definition get_alerts_secrets (self : ScanReport) : M Z :=
  log INFO "Searching for leaked secrets in scan report..." [] ;;
  scan_detections self (fun s => String.eqb s type_secret)
    secrets_alert (value Secrets).

Definition get_alerts_misconfig (self : ScanReport) : M Z :=
  log INFO "Searching for misconfigurations in scan report..." [] ;;
  scan_detections self
    (fun s => String.eqb s type_misconfig || String.eqb s type_cis)
    misconfig_alert (value Success).

(** ** The world outside the script

    What the script's collaborators answer during one run: builtins and
    library calls whose code is not the script's. *)

Record Response (A : Type) : Type := {
  status_code : Z;
  (** the outcome of decoding the body: [resp.json()] for the token
      endpoint, [ScanReport(resp.json())] for the report endpoint *)
  decoded : result A
}.

Arguments status_code {A} r.
Arguments decoded {A} r.

(** A method looked up on the client inside a [try]: it is missing, and the
    lookup raises [AttributeError] before anything is called, or it is there
    and a call answers or raises. *)
Inductive method (A : Type) : Type :=
| Missing
| Answers (r : result A).

Arguments Missing {A}.
Arguments Answers {A} r.

(** What the generator a push returns yields: its lines, and the exception it
    ends with when it does not end well. *)
Record stream : Type := {
  lines : list json;
  broken : option exn
}.

(** What the container runtime client and the podman command line answer. *)
Record Client : Type := {
  (** [client.images.list(filters=...)]: the [attrs] of the images found *)
  images_list : result (list json);
  (** [client.images.pull(local_tag)] *)
  images_pull : result unit;
  (** [client.images.get(local_tag)] *)
  images_get : result unit;
  (** [.tag(url_tag, self.tag, force=True)] on the image found *)
  image_tag : result unit;
  (** what [client.login] returns: a mapping for docker, [None] for podman *)
  login_answer : result json;
  (** the podman process: its return code, standard output and standard
      error *)
  podman_login : result (Z * string * string);
  (** [client.images.push] *)
  images_push : method stream;
  (** [client.push] *)
  client_push : method stream;
  (** the builtin [str.strip] *)
  str_strip : string -> string
}.

Record World : Type := {
  (** [docker.from_env()] and the secret from the environment or the prompt
      (lines 361-365) *)
  runtime : result string;
  (** the client [docker.from_env()] returns, which [container_tag()],
      [container_login()] and [container_push()] drive (lines 368-370) *)
  client : Client;
  (** the answer to the POST on the token endpoint *)
  token_endpoint : Response json;
  (** the answer to the GET of each attempt on the report endpoint, by the
      number of GETs answered before it *)
  report_endpoint : nat -> Response ScanReport;
  (** [open(filename, 'w', encoding="utf-8")] *)
  open_w : string -> result unit;
  (** the builtin [int] on a [str] *)
  int_of_str : string -> result Z
}.

(** What [parse_args] returns. *)
Record Args : Type := {
  client_id : string;
  repo : string;
  tag : string;
  cloud : string;
  score : string;
  json_report : option string;
  retry_count : Z
}.

Fixpoint assoc (key : string) (table : list (string * string)) : option string :=
  match table with
  | [] => None
  | (k, v) :: rest => if String.eqb k key then Some v else assoc key rest
  end.

Definition registry_url_map : list (string * string) :=
  [ ("us-1", "container-upload.us-1.crowdstrike.com");
    ("us-2", "container-upload.us-2.crowdstrike.com");
    ("eu-1", "container-upload.eu-1.crowdstrike.com");
    ("us-gov-1", "container-upload.laggar.gcw.crowdstrike.com") ].

Definition auth_url_map : list (string * string) :=
  [ ("us-1", "https://api.crowdstrike.com");
    ("us-2", "https://api.us-2.crowdstrike.com");
    ("eu-1", "https://api.eu-1.crowdstrike.com");
    ("us-gov-1", "https://api.laggar.gcw.crowdstrike.com") ].

(** [table[key]] on one of the two maps. *)
Definition map_getitem (table : list (string * string)) (key : string) : M string :=
  match assoc key table with
  | Some v => ret v
  | None => raise (KeyError key)
  end.

(** ** class ScanImage *)

Record ScanImage : Type := {
  self_client_id : string;
  self_client_secret : string;
  self_repo : string;
  self_tag : string;
  server_domain : string;
  auth_url : string
}.

(** [ScanImage.__init__] *)
Definition ScanImage_init (client_id client_secret repo tag cloud : string) : M ScanImage :=
  server_domain <- map_getitem registry_url_map cloud ;;
  auth_base <- map_getitem auth_url_map cloud ;;
  ret {| self_client_id := client_id;
         self_client_secret := client_secret;
         self_repo := repo;
         self_tag := tag;
         server_domain := server_domain;
         auth_url := (auth_base ++ "/oauth2/token")%string |}.

(** The body of the generator of [container_tag]: the tags of the images
    found, one after the other. *)
Fixpoint repo_tags (images : list json) : M string :=
  match images with
  | [] => ret ""
  | attrs :: rest =>
      tags <- getitem attrs "RepoTags" ;;
      joined <- str_join tags ;;
      tail <- repo_tags rest ;;
      ret (joined ++ tail)%string
  end.

(** Step 1 *)
Definition container_tag (c : Client) (self : ScanImage) : M unit :=
  let local_tag := (self_repo self ++ ":" ++ self_tag self)%string in
  let url_tag := (server_domain self ++ "/" ++ self_repo self)%string in
  emit (ImagesList local_tag) ;;
  images <- lift (images_list c) ;;
  container_image <- repo_tags images ;;
  (if String.eqb container_image "" then
     log INFO "Pulling container image: '%s'" [JStr local_tag] ;;
     emit (ImagesPull local_tag) ;;
     lift (images_pull c)
   else ret tt) ;;
  log INFO "Tagging '%s' to '%s:%s'" [JStr local_tag; JStr url_tag; JStr (self_tag self)] ;;
  emit (ImagesGet local_tag) ;;
  lift (images_get c) ;;
  emit (ImageTag url_tag (self_tag self)) ;;
  lift (image_tag c).

(** [subprocess.run(command, ..., check=True)]: a return code other than 0
    raises [CalledProcessError]. *)
Definition subprocess_run_check (c : Client) (command : list string)
    : M (Z * string * string) :=
  emit (Run command) ;;
  result <- lift (podman_login c) ;;
  let '(returncode, stdout, stderr) := result in
  if negb (returncode =? 0) then raise (CalledProcessError returncode command)
  else ret (returncode, stdout, stderr).

(** Step 2 *)
Definition container_login (c : Client) (self : ScanImage) : M unit :=
  log INFO "Performing login to CrowdStrike Image Assessment Service" [] ;;
  emit (ClientLogin (self_client_id self) (self_client_secret self) (server_domain self)) ;;
  login <- lift (login_answer c) ;;
  try_except
    (status <- getitem login "Status" ;;
     emit (LogObject INFO status))
    [(is_TypeError,
      let command := ["/usr/bin/podman"; "login"] in
      let command := command ++ ["--username"; self_client_id self] in
      let command := command ++ ["--password"; self_client_secret self] in
      let command := command ++ [server_domain self] in
      result <- subprocess_run_check c command ;;
      let '(returncode, stdout, stderr) := result in
      if negb (returncode =? 0) then raise (PlainException (str_strip c stderr))
      else log INFO (str_strip c stdout) [])].

(** A method of the client called inside a [try]. *)
Definition call {A} (ev : event) (m : method A) : M A :=
  match m with
  | Missing => raise AttributeError
  | Answers r => emit ev ;; lift r
  end.

(** The body of the loop of [container_push]: one line of the stream. *)
Definition push_line (line : json) : M unit :=
  has_error <- contains "error" line ;;
  if (has_error : bool) then
    error <- getitem line "error" ;;
    status <- str_add "docker_push " error ;;
    raise (APIError status)
  else
    has_status <- contains "status" line ;;
    pushing <- (if (has_status : bool) then
                  status <- getitem line "status" ;;
                  ret (equals_str status "Pushing")
                else ret false) ;;
    if (pushing : bool) then
      progress <- get line "progress" JNull ;;
      details <- get line "progressDetails" JNull ;;
      emit (Print "Pushing {}" [JArr [progress; details]] carriage_return)
    else
      has_status <- contains "status" line ;;
      if (has_status : bool) then
        status <- getitem line "status" ;;
        log INFO "Docker: %s" [status]
      else
        emit (LogObject DEBUG line).

Fixpoint push_loop (image_push : list json) (ending : option exn) : M unit :=
  match image_push with
  | [] =>
      match ending with
      | Some e => raise e
      | None => ret tt
      end
  | line :: rest => push_line line ;; push_loop rest ending
  end.

(** Step 3 *)
Definition container_push (c : Client) (self : ScanImage) : M unit :=
  let image_str :=
    (server_domain self ++ "/" ++ self_repo self ++ ":" ++ self_tag self)%string in
  log INFO "Performing container push to %s" [JStr image_str] ;;
  image_push <- try_except
                  (call (ImagesPush image_str) (images_push c))
                  [(is_AttributeError, call (ClientPush image_str) (client_push c))] ;;
  push_loop (lines image_push) (broken image_push).

Definition requests_post (w : World) (url : string)
    (data headers : list (string * string)) : M (Response json) :=
  emit (HttpPost url data headers) ;;
  ret (token_endpoint w).

(** [BearerAuth.__call__]: ["Bearer " + self.token], run by [requests] while
    it prepares the request. *)
Definition BearerAuth_call (token : json) : M string :=
  match token with
  | JStr t => ret ("Bearer " ++ t)%string
  | _ => raise TypeError
  end.

Definition requests_get (w : World) (url : string) (token : json) (attempt : nat)
    : M (Response ScanReport) :=
  authorization <- BearerAuth_call token ;;
  emit (HttpGet url authorization) ;;
  ret (report_endpoint w attempt).

Definition time_sleep (seconds : Z) : M unit := emit (Sleep seconds).

(** Step 4 *)
Definition get_api_token (w : World) (self : ScanImage) : M json :=
  log INFO "Authenticating with CrowdStrike Falcon API" [] ;;
  let post_url := auth_url self in
  let payload := [("client_id", self_client_id self);
                  ("client_secret", self_client_secret self)] in
  let headers := [("Content-Type", "application/x-www-form-urlencoded")] in
  resp <- requests_post w post_url payload headers ;;
  if (status_code resp =? 200) || (status_code resp =? 201) then
    body <- lift (decoded resp) ;;
    getitem body "access_token"
  else
    raise (APIError ("POST " ++ post_url ++ " " ++ str_of_int (status_code resp))%string).

(** The [for count in range(retry_count)] loop of [get_scanreport] and what
    follows it.  [resp] is the local variable of that name: unbound until the
    first attempt assigns it. *)
Fixpoint poll_loop (w : World) (get_url : string) (token : json) (sleep_seconds : Z)
    (counts : list nat) (resp : option (Response ScanReport)) : M ScanReport :=
  match counts with
  | [] =>
      log ERROR "Retries exhausted" [] ;;
      match resp with
      | Some resp => raise (APIError ("GET " ++ get_url ++ " " ++ str_of_int (status_code resp))%string)
      | None => raise (UnboundLocalError "resp")
      end
  | count :: rest =>
      time_sleep sleep_seconds ;;
      log DEBUG "retry count %s" [JInt (Z.of_nat count)] ;;
      resp <- requests_get w get_url token count ;;
      if negb (status_code resp =? 200) then
        log INFO "Scan report is not ready yet, retrying in %s seconds" [JInt sleep_seconds] ;;
        poll_loop w get_url token sleep_seconds rest (Some resp)
      else
        lift (decoded resp)
  end.

(** [range(n)] for an [int] n. *)
Definition range (n : Z) : list nat := seq 0 (Z.to_nat n).

(** Step 5 *)
Definition get_scanreport (w : World) (self : ScanImage) (token : json) (retry_count : Z)
    : M ScanReport :=
  log INFO "Downloading Image Scan Report" [] ;;
  let scanreport_endpoint := "/reports?" in
  let server_url := ("https://" ++ server_domain self)%string in
  let scanreport_url := (server_url ++ scanreport_endpoint)%string in
  let sleep_seconds := 10 in
  let get_url :=
    (scanreport_url ++ "repository=" ++ self_repo self ++ "&tag=" ++ self_tag self)%string in
  poll_loop w get_url token sleep_seconds (range retry_count) None.

(** [ScanReport.export]; the [FileWrite] stands for the text
    [json.dumps(self, indent=4)] written to the file. *)
Definition export (w : World) (self : ScanReport) (filename : string) : M unit :=
  lift (open_w w filename) ;;
  emit (FileWrite filename (JObj self)).

(** ** main *)

Definition sys_exit {A} (code : Z) : M A := raise (SystemExit code).

(** Lines 360-370: the runtime client, the secret, the [ScanImage] and its
    three container steps. *)
Definition prepare (w : World) (args : Args) : M ScanImage :=
  client_secret <- lift (runtime w) ;;
  scan_image <- ScanImage_init (client_id args) client_secret (repo args) (tag args) (cloud args) ;;
  container_tag (client w) scan_image ;;
  container_login (client w) scan_image ;;
  container_push (client w) scan_image ;;
  ret scan_image.

(** Lines 360-375: everything up to the report in hand.  [if json_report:]
    holds for a string that is not empty. *)
Definition acquire (w : World) (args : Args) : M ScanReport :=
  scan_image <- prepare w args ;;
  token <- get_api_token w scan_image ;;
  scan_report <- get_scanreport w scan_image token (retry_count args) ;;
  (match json_report args with
   | Some filename =>
       if negb (String.eqb filename "") then export w scan_report filename else ret tt
   | None => ret tt
   end) ;;
  ret scan_report.

(** Lines 381-394: the decision. *)
Definition decide (w : World) (args : Args) (f_vuln_score f_secrets f_malware : Z) : M unit :=
  if f_secrets =? value Secrets then
    log ERROR "Exiting: Secrets found in container image" [] ;;
    sys_exit (value Secrets)
  else if f_malware =? value Malware then
    log ERROR "Exiting: Malware found in container image" [] ;;
    sys_exit (value Malware)
  else
    threshold <- lift (int_of_str w (score args)) ;;
    if f_vuln_score >=? threshold then
      log ERROR "Exiting: Vulnerability score threshold exceeded: '%s' out of '%s'"
        [JInt f_vuln_score; JStr (score args)] ;;
      sys_exit (value Vulnerability)
    else
      log INFO "Vulnerability score threshold not met: '%s' out of '%s'"
        [JInt f_vuln_score; JStr (score args)] ;;
      sys_exit (value Success).

(** Lines 376-394: the four scans, then the decision. *)
Definition assess (w : World) (args : Args) (scan_report : ScanReport) : M unit :=
  f_vuln_score <- get_alerts_vuln scan_report ;;
  f_secrets <- get_alerts_secrets scan_report ;;
  f_malware <- get_alerts_malware scan_report ;;
  get_alerts_misconfig scan_report ;;
  decide w args f_vuln_score f_secrets f_malware.

(** The two [except] clauses of [main]. *)
Definition guarded (body : M unit) : M unit :=
  try_except body
    [ (is_APIError,
       log ERROR "Unable to scan" [] ;; sys_exit (value ScriptFailure));
      (is_Exception,
       log ERROR "Unknown error" [] ;; sys_exit (value ScriptFailure)) ].

Definition main (w : World) (args : Args) : M unit :=
  guarded (scan_report <- acquire w args ;; assess w args scan_report).

(** The status the process ends with: the code of the [SystemExit] that
    leaves [main]; 1 after an uncaught exception, 0 when [main] returns. *)
Definition exit_code (run : M unit) : Z :=
  match outcome run with
  | Raise (SystemExit code) => code
  | Raise _ => 1
  | Ok _ => 0
  end.


(** ** The specification's vocabulary

    What the specification says about a report, written down on the document
    itself and independently of the methods above. *)

(** The type of a detection record: the string under [Detection], then
    [Type], when it is there. *)
Definition detection_type (detection : json) : option string :=
  match detection with
  | JObj members =>
      match lookup "Detection" members with
      | Some (JObj d) =>
          match lookup "Type" d with
          | Some (JStr s) => Some s
          | _ => None
          end
      | _ => None
      end
  | _ => None
  end.

(** The detection's type, compared without regard to case, is one of
    [types]. *)
Definition has_type (types : list string) (detection : json) : bool :=
  match detection_type detection with
  | Some s => existsb (String.eqb (lower s)) types
  | None => false
  end.

Definition any_of_type (types : list string) (detections : list json) : bool :=
  existsb (has_type types) detections.

(** A detection record as the data model has it: a mapping whose [Detection]
    member, when present, is a mapping whose [Type], when present, is a
    string. *)
Definition detection_record (detection : json) : bool :=
  match detection with
  | JObj members =>
      match lookup "Detection" members with
      | None => true
      | Some (JObj d) =>
          match lookup "Type" d with
          | None => true
          | Some (JStr _) => true
          | Some _ => false
          end
      | Some _ => false
      end
  | _ => false
  end.

(** The severity under one of the two score mappings, when present: the
    mapping is there, has a [severity], and it is not null. *)
Definition severity_under (name : string) (details : list (string * json)) : option json :=
  match lookup name details with
  | Some (JObj score) =>
      match lookup "severity" score with
      | Some JNull => None
      | found => found
      end
  | _ => None
  end.

(** The severity the details resolve to, read on the document: the one
    under cvss_v3, then the one under cvss_v2, then the flat severity field
    as it is, and the empty string when there is none or when the details are
    not a mapping. *)
Definition severity_by_priority (details : json) : json :=
  match details with
  | JObj d =>
      match severity_under "cvss_v3_score" d with
      | Some s => s
      | None =>
          match severity_under "cvss_v2_score" d with
          | Some s => s
          | None =>
              match lookup "severity" d with
              | Some s => s
              | None => JStr ""
              end
          end
      end
  | _ => JStr ""
  end.




(** The weight table, on a severity compared without regard to case. *)
Definition weight (severity : string) : Z :=
  let s := lower severity in
  if String.eqb s "critical" then 2000
  else if String.eqb s "high" then 500
  else if String.eqb s "medium" then 100
  else if String.eqb s "low" then 20
  else 0.

(** The details of a vulnerability record: the [Details] of its
    [Vulnerability], an empty mapping when there are none. *)
Definition details_of (vulnerability : json) : json :=
  match vulnerability with
  | JObj members =>
      match lookup "Vulnerability" members with
      | Some (JObj vuln) =>
          match lookup "Details" vuln with
          | Some details => details
          | None => JObj []
          end
      | _ => JObj []
      end
  | _ => JObj []
  end.

Definition record_weight (vulnerability : json) : Z :=
  match severity_by_priority (details_of vulnerability) with
  | JStr s => weight s
  | _ => 0
  end.

Fixpoint total_weight (vulnerabilities : list json) : Z :=
  match vulnerabilities with
  | [] => 0
  | v :: rest => record_weight v + total_weight rest
  end.

Definition mapping_or_absent (x : option json) : bool :=
  match x with
  | None => true
  | Some (JObj _) => true
  | Some _ => false
  end.

Definition is_str (x : json) : bool :=
  match x with JStr _ => true | _ => false end.

(** Details the scan can read: not a mapping at all, or a mapping whose two
    score members, when present, are mappings. *)
Definition scores_are_mappings (details : json) : bool :=
  match details with
  | JObj d =>
      mapping_or_absent (lookup "cvss_v3_score" d)
      && mapping_or_absent (lookup "cvss_v2_score" d)
  | _ => true
  end.

(** A vulnerability record the scan can score: a mapping with a
    [Vulnerability] mapping, whose [Product], when present, is a mapping,
    whose details can be read and resolve to a string. *)
Definition vulnerability_record (vulnerability : json) : bool :=
  match vulnerability with
  | JObj members =>
      match lookup "Vulnerability" members with
      | Some (JObj vuln) =>
          mapping_or_absent (lookup "Product" vuln)
          && scores_are_mappings (details_of vulnerability)
          && is_str (severity_by_priority (details_of vulnerability))
      | _ => false
      end
  | _ => false
  end.

(** A section of the report that is null or a list of records. *)
Definition section_of (record : json -> bool) (section : option json) : bool :=
  match section with
  | Some JNull => true
  | Some (JArr items) => forallb record items
  | _ => false
  end.

Definition well_formed_report (self : ScanReport) : bool :=
  section_of vulnerability_record (lookup vuln_str_key_1 self)
  && section_of detection_record (lookup detect_str_key self).

(** The detections a scan iterates over. *)
Definition detections_of (self : ScanReport) : list json :=
  match lookup detect_str_key self with
  | Some (JArr items) => items
  | Some (JObj members) => map (fun kv => JStr (fst kv)) members
  | Some (JStr s) => chars s
  | _ => []
  end.

Definition misconfig_types : list string := [type_misconfig; type_cis].

(** The effects that reach outside the process: sleeping and HTTP. *)
Definition is_io (ev : event) : bool :=
  match ev with
  | Sleep _ | HttpPost _ _ _ | HttpGet _ _ => true
  | _ => false
  end.

(** The decision the specification describes: first match wins. *)
Definition first_match (secrets malware : bool) (vuln_score threshold : Z) : ScanStatusCode :=
  if secrets then Secrets
  else if malware then Malware
  else if vuln_score >=? threshold then Vulnerability
  else Success.

(** What the test of a scan answers on a detection, by the specification's
    reading of its type. *)
Definition hits (hit : string -> bool) (detection : json) : bool :=
  match detection_type detection with
  | Some s => hit (lower s)
  | None => false
  end.

(** The requests a run makes to the token endpoint: the log record that
    announces it and the one POST. *)
Definition token_request (self : ScanImage) : list event :=
  [ Log INFO "Authenticating with CrowdStrike Falcon API" [];
    HttpPost (auth_url self)
      [("client_id", self_client_id self); ("client_secret", self_client_secret self)]
      [("Content-Type", "application/x-www-form-urlencoded")] ].

Definition accepted (status : Z) : bool := (status =? 200) || (status =? 201).

(** The sleeps and GETs of [k] attempts. *)
Fixpoint attempts (sleep_seconds : Z) (url authorization : string) (k : nat) : list event :=
  match k with
  | O => []
  | S k => Sleep sleep_seconds :: HttpGet url authorization :: attempts sleep_seconds url authorization k
  end.

Definition io_effects {A} (m : M A) : list event := filter is_io (effects m).

(** The URL [get_scanreport] polls. *)
Definition report_url (self : ScanImage) : string :=
  let scanreport_endpoint := "/reports?" in
  let server_url := ("https://" ++ server_domain self)%string in
  let scanreport_url := (server_url ++ scanreport_endpoint)%string in
  (scanreport_url ++ "repository=" ++ self_repo self ++ "&tag=" ++ self_tag self)%string.

Definition not_misconfig (detection : json) : bool :=
  negb (has_type misconfig_types detection).

(** A scan method is its opening log record followed by the shared scan. *)
Definition scan_method (opening : string) (self : ScanReport) (hit : string -> bool)
    (alert : event) (code : Z) : M Z :=
  log INFO opening [] ;; scan_detections self hit alert code.

(** ** The rest of the script *)

(** [ScanReport.status_code]: the four codes, or'ed bit by bit. *)
Definition ScanReport_status_code (self : ScanReport) : M Z :=
  vuln_code <- get_alerts_vuln self ;;
  mal_code <- get_alerts_malware self ;;
  sec_code <- get_alerts_secrets self ;;
  mcfg_code <- get_alerts_misconfig self ;;
  ret (Z.lor (Z.lor (Z.lor vuln_code mal_code) sec_code) mcfg_code).

(** ** The container steps, in the words of their properties *)

(** A line of the push stream that is a mapping without an [error]. *)
Definition quiet_line (line : json) : bool :=
  match line with
  | JObj members =>
      match lookup "error" members with Some _ => false | None => true end
  | _ => false
  end.

(** What a quiet line leaves on the console or in the log. *)
Definition line_output (line : json) : event :=
  match line with
  | JObj members =>
      match lookup "status" members with
      | Some status =>
          if equals_str status "Pushing" then
            Print "Pushing {}"
              [JArr [match lookup "progress" members with Some v => v | None => JNull end;
                     match lookup "progressDetails" members with
                     | Some v => v
                     | None => JNull
                     end]] carriage_return
          else Log INFO "Docker: %s" [status]
      | None => LogObject DEBUG line
      end
  | _ => LogObject DEBUG line
  end.

(** The image a push names. *)
Definition image_ref (self : ScanImage) : string :=
  (server_domain self ++ "/" ++ self_repo self ++ ":" ++ self_tag self)%string.

(** [client.images.push] is missing or raised [AttributeError]: the push
    turns to [client.push]. *)
Definition falls_back (c : Client) : bool :=
  match images_push c with
  | Missing | Answers (Raise AttributeError) => true
  | _ => false
  end.

(** The stream a push iterates over: the one of [client.images.push], or
    the one of [client.push] after an [AttributeError]. *)
Definition pushed (c : Client) : result stream :=
  if falls_back c then
    match client_push c with
    | Missing => Raise AttributeError
    | Answers r => r
    end
  else
    match images_push c with
    | Missing => Raise AttributeError
    | Answers r => r
    end.

(** What a push leaves before it reads its stream: its log record and the
    calls it made on the client. *)
Definition push_opening (c : Client) (self : ScanImage) : list event :=
  Log INFO "Performing container push to %s" [JStr (image_ref self)]
  :: match images_push c with
     | Missing => []
     | Answers _ => [ImagesPush (image_ref self)]
     end
  ++ (if falls_back c then
        match client_push c with
        | Missing => []
        | Answers _ => [ClientPush (image_ref self)]
        end
      else []).

(** The command line of the podman login. *)
Definition podman_command (self : ScanImage) : list string :=
  ["/usr/bin/podman"; "login"; "--username"; self_client_id self;
   "--password"; self_client_secret self; server_domain self].

(** What a login leaves before it reads the client's answer. *)
Definition login_opening (self : ScanImage) : list event :=
  [Log INFO "Performing login to CrowdStrike Image Assessment Service" [];
   ClientLogin (self_client_id self) (self_client_secret self) (server_domain self)].

(** The effects of the container steps: what they log and print, their
    calls on the client and the command they run. *)
Definition is_container (ev : event) : bool :=
  match ev with
  | Log _ _ _ | LogObject _ _ | Print _ _ _
  | ImagesList _ | ImagesPull _ | ImagesGet _ | ImageTag _ _
  | ClientLogin _ _ _ | ImagesPush _ | ClientPush _ | Run _ => true
  | _ => false
  end.

(** ** More vocabulary *)

(** A computation that raises only exceptions [ok_exn] accepts and performs
    only effects [ok_ev] accepts. *)
Definition obeys {A} (ok_exn : exn -> bool) (ok_ev : event -> bool) (m : M A) : Prop :=
  (forall e, outcome m = Raise e -> ok_exn e = true)
  /\ forallb ok_ev (effects m) = true.

Definition raises_only {A} (ok_exn : exn -> bool) (r : result A) : Prop :=
  forall e, r = Raise e -> ok_exn e = true.

Definition method_raises {A} (ok_exn : exn -> bool) (m : method A) : Prop :=
  forall e, m = Answers (Raise e) -> ok_exn e = true.

Definition stream_raises (ok_exn : exn -> bool) (m : method stream) : Prop :=
  forall s e, m = Answers (Ok s) -> broken s = Some e -> ok_exn e = true.

(** A client whose calls fail, when they fail, with exceptions [ok_exn]
    accepts. *)
Definition client_raises (ok_exn : exn -> bool) (c : Client) : Prop :=
  raises_only ok_exn (images_list c)
  /\ raises_only ok_exn (images_pull c)
  /\ raises_only ok_exn (images_get c)
  /\ raises_only ok_exn (image_tag c)
  /\ raises_only ok_exn (login_answer c)
  /\ raises_only ok_exn (podman_login c)
  /\ method_raises ok_exn (images_push c)
  /\ stream_raises ok_exn (images_push c)
  /\ method_raises ok_exn (client_push c)
  /\ stream_raises ok_exn (client_push c).

(** A world whose collaborators fail, when they fail, with exceptions
    [ok_exn] accepts. *)
Definition world_raises (ok_exn : exn -> bool) (w : World) : Prop :=
  raises_only ok_exn (runtime w)
  /\ client_raises ok_exn (client w)
  /\ raises_only ok_exn (decoded (token_endpoint w))
  /\ (forall k, raises_only ok_exn (decoded (report_endpoint w k)))
  /\ (forall filename, raises_only ok_exn (open_w w filename))
  /\ (forall s, raises_only ok_exn (int_of_str w s)).

(** A world none of whose collaborators ends the process by itself. *)
Definition ordinary (w : World) : Prop := world_raises is_Exception w.

Definition is_log (ev : event) : bool :=
  match ev with Log _ _ _ => true | _ => false end.

Definition is_write (ev : event) : bool :=
  match ev with FileWrite _ _ => true | _ => false end.

Definition is_lookup_error (e : exn) : bool :=
  match e with
  | KeyError _ | TypeError | AttributeError => true
  | _ => false
  end.

(** The cloud regions of the two endpoint tables. *)
Definition regions : list string := ["us-1"; "us-2"; "eu-1"; "us-gov-1"].

(** The vulnerabilities the scan iterates over. *)
Definition vulnerabilities_of (self : ScanReport) : list json :=
  match lookup vuln_str_key_1 self with
  | Some (JArr items) => items
  | Some (JObj members) => map (fun kv => JStr (fst kv)) members
  | Some (JStr s) => chars s
  | _ => []
  end.

(** What the warning about a vulnerability record names: its CVE
    identifier, [CVE-unknown] when it has none, and the package source of its
    product, the whole product when it has none. *)
Definition vuln_of (vulnerability : json) : list (string * json) :=
  match vulnerability with
  | JObj members =>
      match lookup "Vulnerability" members with
      | Some (JObj vuln) => vuln
      | _ => []
      end
  | _ => []
  end.

Definition cve_of (vulnerability : json) : json :=
  match lookup "CVEID" (vuln_of vulnerability) with
  | Some cve => cve
  | None => JStr "CVE-unknown"
  end.

Definition affects_of (vulnerability : json) : json :=
  match lookup "Product" (vuln_of vulnerability) with
  | Some (JObj product) =>
      match lookup "PackageSource" product with
      | Some source => source
      | None => JObj product
      end
  | _ => JObj []
  end.

Definition warning_of (vulnerability : json) : event :=
  Log WARNING "%-8s %-16s Vulnerability detected affecting %s"
    [severity_by_priority (details_of vulnerability); cve_of vulnerability;
     affects_of vulnerability].

(** The code a clean run of the detection scans adds to the score in
    [status_code]. *)
Definition detection_code (secrets malware : bool) : Z :=
  if secrets then value Secrets else if malware then value Malware else 0.

(** ** Sample runs *)

Module Examples.

Definition detection (ty : json) : json :=
  JObj [("Detection", JObj [("Type", ty)])].

Definition vulnerability (details : list (string * json)) : json :=
  JObj [("Vulnerability",
         JObj [("CVEID", JStr "CVE-2021-0001"); ("Details", JObj details)])].

Definition high_v3_low_v2 : json :=
  vulnerability [("cvss_v3_score", JObj [("severity", JStr "HIGH")]);
                 ("cvss_v2_score", JObj [("severity", JStr "low")])].

Definition report (vulnerabilities detections : list json) : ScanReport :=
  [(vuln_str_key_1, JArr vulnerabilities); (detect_str_key, JArr detections)].

Definition token_ok : Response json :=
  {| status_code := 200; decoded := Ok (JObj [("access_token", JStr "token")]) |}.

Definition token_denied : Response json :=
  {| status_code := 401; decoded := Ok (JObj [("errors", JArr [])]) |}.

(** A push stream without an error: a layer being pushed, a line without
    status, the end of the push. *)
Definition quiet_push : stream :=
  {| lines := [JObj [("status", JStr "Pushing"); ("progress", JStr "[=>  ]")];
               JObj [("aux", JObj [])];
               JObj [("status", JStr "Pushed")]];
     broken := None |}.

(** A docker client that has the image: it logs in with a status and pushes
    [s] with [client.images.push]. *)
Definition docker (s : stream) : Client :=
  {| images_list := Ok [JObj [("RepoTags", JArr [JStr "myapp:v1"])]];
     images_pull := Ok tt;
     images_get := Ok tt;
     image_tag := Ok tt;
     login_answer := Ok (JObj [("Status", JStr "Login Succeeded")]);
     podman_login := Raise OSError;
     images_push := Answers (Ok s);
     client_push := Missing;
     str_strip := fun text => text |}.

(** A world in which everything works, the report endpoint answers 202
    [pending] times and then serves [r], and the threshold reads 500. *)
Definition world (token : Response json) (pending : nat) (r : ScanReport) : World :=
  {| runtime := Ok "secret";
     client := docker quiet_push;
     token_endpoint := token;
     report_endpoint := fun k =>
       if (k <? pending)%nat then {| status_code := 202; decoded := Raise JSONDecodeError |}
       else {| status_code := 200; decoded := Ok r |};
     open_w := fun _ => Ok tt;
     int_of_str := fun _ => Ok 500 |}.

Definition args (retries : Z) : Args :=
  {| client_id := "id"; repo := "myapp"; tag := "v1"; cloud := "us-1";
     score := "500"; json_report := None; retry_count := retries |}.

Definition image : ScanImage :=
  {| self_client_id := "id"; self_client_secret := "secret";
     self_repo := "myapp"; self_tag := "v1";
     server_domain := "container-upload.us-1.crowdstrike.com";
     auth_url := "https://api.crowdstrike.com/oauth2/token" |}.

(** What the three container steps leave in these worlds, for [image]: the
    image is found and tagged, the login answers with a status, and the
    three lines of the push are reported. *)
Definition steps : list event :=
  [ImagesList "myapp:v1";
   Log INFO "Tagging '%s' to '%s:%s'"
     [JStr "myapp:v1"; JStr "container-upload.us-1.crowdstrike.com/myapp"; JStr "v1"];
   ImagesGet "myapp:v1";
   ImageTag "container-upload.us-1.crowdstrike.com/myapp" "v1";
   Log INFO "Performing login to CrowdStrike Image Assessment Service" [];
   ClientLogin "id" "secret" "container-upload.us-1.crowdstrike.com";
   LogObject INFO (JStr "Login Succeeded");
   Log INFO "Performing container push to %s"
     [JStr "container-upload.us-1.crowdstrike.com/myapp:v1"];
   ImagesPush "container-upload.us-1.crowdstrike.com/myapp:v1";
   Print "Pushing {}" [JArr [JStr "[=>  ]"; JNull]] carriage_return;
   LogObject DEBUG (JObj [("aux", JObj [])]);
   Log INFO "Docker: %s" [JStr "Pushed"]].


(** One high vulnerability, a secret and malware. *)
Definition secret_and_malware : ScanReport :=
  report [high_v3_low_v2] [detection (JStr "Malware"); detection (JStr "Secret")].

(** A vulnerability record without its [Vulnerability], and a detection
    whose type is a number. *)
Definition malformed : ScanReport :=
  report [JObj []] [detection (JInt 7)].

(** A secret, malware, a CIS finding and a detection whose type is null;
    and the same without the CIS finding. *)
Definition shielded : list json :=
  [detection (JStr "secret"); detection (JStr "malware"); detection (JStr "cis");
   detection JNull].

Definition exposed : list json :=
  [detection (JStr "secret"); detection (JStr "malware"); detection JNull].

End Examples.

(** ** More sample runs *)

Module Samples.

(** A token endpoint that serves a number for token. *)
Definition token_number : Response json :=
  {| status_code := 200; decoded := Ok (JObj [("access_token", JInt 123)]) |}.

(** A token endpoint that answers 200 without a token. *)
Definition token_missing : Response json :=
  {| status_code := 200; decoded := Ok (JObj [("token_type", JStr "bearer")]) |}.

(** The world of the examples, with a threshold that does not read as an
    integer. *)
Definition world_without_threshold (r : ScanReport) : World :=
  {| runtime := Ok "secret";
     client := Examples.docker Examples.quiet_push;
     token_endpoint := Examples.token_ok;
     report_endpoint := fun _ => {| status_code := 200; decoded := Ok r |};
     open_w := fun _ => Ok tt;
     int_of_str := fun _ => Raise ValueError |}.

(** The arguments of the examples, with a report file. *)
Definition args_with_file (filename : string) : Args :=
  {| client_id := "id"; repo := "myapp"; tag := "v1"; cloud := "us-1";
     score := "500"; json_report := Some filename; retry_count := 1 |}.

(** A secret next to a vulnerability record without [Vulnerability]. *)
Definition secret_and_unreadable : ScanReport :=
  Examples.report [JObj []] [Examples.detection (JStr "secret")].

(** Malware, and nothing else. *)
Definition malware_only : ScanReport :=
  Examples.report [] [Examples.detection (JStr "malware")].

(** A secret, then a detection whose type is a number. *)
Definition secret_then_unreadable : ScanReport :=
  Examples.report [] [JObj []; Examples.detection (JStr "Secret");
                      Examples.detection (JInt 7)].

(** A vulnerability record with a product and no identifier. *)
Definition low_with_product : json :=
  JObj [("Vulnerability",
         JObj [("Details", JObj [("severity", JStr "low")]);
               ("Product", JObj [("PackageSource", JStr "openssl 1.1.1")])])].

(** A push stream: a layer being pushed, a status, then an error. *)
Definition failing_push : stream :=
  {| lines := [JObj [("status", JStr "Pushing"); ("progress", JStr "[=>  ]")];
               JObj [("status", JStr "Preparing")];
               JObj [("error", JStr "denied"); ("status", JStr "Pushing")];
               JObj [("status", JStr "Pushed")]];
     broken := None |}.

(** A podman client that has no image yet: its login returns [None], its
    command line ends with [returncode], and it pushes [s] with
    [client.push]. *)
Definition podman (returncode : Z) (s : stream) : Client :=
  {| images_list := Ok [];
     images_pull := Ok tt;
     images_get := Ok tt;
     image_tag := Ok tt;
     login_answer := Ok JNull;
     podman_login := Ok (returncode, "Login Succeeded!", "unauthorized");
     images_push := Missing;
     client_push := Answers (Ok s);
     str_strip := fun text => text |}.

(** The world of the examples around another client. *)
Definition world_of (c : Client) (r : ScanReport) : World :=
  {| runtime := Ok "secret";
     client := c;
     token_endpoint := Examples.token_ok;
     report_endpoint := fun _ => {| status_code := 200; decoded := Ok r |};
     open_w := fun _ => Ok tt;
     int_of_str := fun _ => Ok 500 |}.

End Samples.

(** * Properties *)

(** ** The monad *)

Section Monad_laws.
Context {A B C : Type}.

Lemma bind_ret_l (a : A) (f : A -> M B) : bind (ret a) f = f a.
Proof. unfold bind, ret. destruct (f a). reflexivity. Qed.

Lemma bind_ret_r (m : M A) : bind m ret = m.
Proof.
  destruct m as [[a | e] t]; simpl; [| reflexivity].
  now rewrite app_nil_r.
Qed.

Lemma bind_assoc (m : M A) (f : A -> M B) (g : B -> M C) :
  bind (bind m f) g = bind m (fun a => bind (f a) g).
Proof.
  destruct m as [[a | e] t]; simpl; [| reflexivity].
  destruct (f a) as [[b | e] t1]; simpl; [| reflexivity].
  destruct (g b) as [r t2]. now rewrite app_assoc.
Qed.

Lemma bind_raise (e : exn) (f : A -> M B) : bind (raise e) f = raise e.
Proof. reflexivity. Qed.

Lemma outcome_bind (m : M A) (f : A -> M B) :
  outcome (bind m f) =
  match outcome m with
  | Ok a => outcome (f a)
  | Raise e => Raise e
  end.
Proof.
  destruct m as [[a | e] t]; simpl; [| reflexivity].
  now destruct (f a).
Qed.

Lemma effects_bind (m : M A) (f : A -> M B) :
  effects (bind m f) =
  effects m ++ match outcome m with
               | Ok a => effects (f a)
               | Raise _ => []
               end.
Proof.
  destruct m as [[a | e] t]; simpl.
  - now destruct (f a).
  - now rewrite app_nil_r.
Qed.

Lemma bind_ok (a : A) (t : list event) (f : A -> M B) :
  bind (Ok a, t) f = (outcome (f a), t ++ effects (f a)).
Proof. unfold bind. now destruct (f a). Qed.

Lemma bind_emit (ev : event) (k : unit -> M B) :
  bind (emit ev) k = (outcome (k tt), ev :: effects (k tt)).
Proof. unfold bind, emit. now destruct (k tt). Qed.
End Monad_laws.

(** The status [main] ends with, by the outcome of its [try] block. *)
Lemma exit_code_guarded (body : M unit) :
  exit_code (guarded body) =
  match outcome body with
  | Ok _ => 0
  | Raise (SystemExit code) => code
  | Raise _ => value ScriptFailure
  end.
Proof.
  destruct body as [[[] | e] t]; [reflexivity |]. now destruct e.
Qed.

(** What the handlers of [main] add to the effects of its [try] block. *)
Lemma effects_guarded (body : M unit) :
  effects (guarded body) =
  effects body ++
  match outcome body with
  | Raise e =>
      if is_APIError e then [Log ERROR "Unable to scan" []]
      else if is_Exception e then [Log ERROR "Unknown error" []]
      else []
  | Ok _ => []
  end.
Proof.
  destruct body as [[[] | e] t]; cbn.
  - now rewrite app_nil_r.
  - destruct e; cbn; try reflexivity. now rewrite app_nil_r.
Qed.

Lemma pair_outcome_effects {A} (m : M A) : m = (outcome m, effects m).
Proof. now destruct m. Qed.

(** ** The detection scans *)

Section Detection_scan.
Variables (hit : string -> bool) (alert : event) (code : Z).

(** On a detection record, one iteration breaks exactly on a hit, and goes
    on silently otherwise: a missing [Detection] or [Type] is skipped. *)
Lemma detection_step_record (detection : json) :
  detection_record detection = true ->
  detection_step hit alert code detection =
  if hits hit detection then (Ok (Some code), [alert]) else (Ok None, []).
Proof.
  unfold detection_record, hits, detection_type, detection_step.
  destruct detection as [| | | | | |members]; try discriminate.
  simpl. destruct (lookup "Detection" members) as [[| | | | | |d]|];
    try discriminate; simpl; [| reflexivity].
  destruct (lookup "Type" d) as [[| | | |s| |]|]; try discriminate; simpl;
    [| reflexivity].
  now destruct (hit (lower s)).
Qed.

(** An iteration that does not raise was on a detection record. *)
Lemma detection_step_returns (detection : json) (r : option Z) :
  outcome (detection_step hit alert code detection) = Ok r ->
  detection_record detection = true.
Proof.
  unfold detection_record, detection_step.
  destruct detection as [| | | | | |members]; try discriminate.
  simpl. destruct (lookup "Detection" members) as [[| | | | | |d]|];
    try discriminate; simpl; [| reflexivity].
  destruct (lookup "Type" d) as [[| | | |s| |]|]; try discriminate; reflexivity.
Qed.

Lemma detection_loop_records (detections : list json) (det_code : Z) :
  forallb detection_record detections = true ->
  detection_loop hit alert code detections det_code =
  if existsb (hits hit) detections then (Ok code, [alert]) else (Ok det_code, []).
Proof.
  induction detections as [| d rest IH]; simpl; [reflexivity |].
  intros H. apply andb_prop in H as [Hd Hrest].
  rewrite (detection_step_record d Hd).
  destruct (hits hit d); simpl; [reflexivity |].
  rewrite (IH Hrest). now destruct (existsb (hits hit) rest).
Qed.

Lemma detection_loop_returns (detections : list json) (det_code c : Z) (t : list event) :
  detection_loop hit alert code detections det_code = (Ok c, t) ->
  (c, t) = if existsb (hits hit) detections then (code, [alert]) else (det_code, []).
Proof.
  revert t. induction detections as [| d rest IH]; simpl; intros t H.
  - now inversion H.
  - destruct (detection_step hit alert code d) as [[r | e] t1] eqn:Hstep;
      [| discriminate].
    assert (Hd : detection_record d = true)
      by (apply (detection_step_returns d r); now rewrite Hstep).
    rewrite (detection_step_record d Hd) in Hstep.
    destruct (hits hit d); inversion Hstep; subst; simpl in *.
    + now inversion H.
    + destruct (detection_loop hit alert code rest det_code) as [r' t'] eqn:Hl.
      inversion H; subst. now apply IH.
Qed.

(** A detection the scan skips leaves the scan of the others as it is. *)
Lemma detection_loop_skip (detection : json) (rest : list json) (det_code : Z) :
  detection_record detection = true -> hits hit detection = false ->
  detection_loop hit alert code (detection :: rest) det_code =
  detection_loop hit alert code rest det_code.
Proof.
  intros Hd Hh. simpl. rewrite (detection_step_record _ Hd), Hh.
  now destruct (detection_loop hit alert code rest det_code).
Qed.

Lemma scan_detections_list (self : ScanReport) (detections : list json) :
  lookup detect_str_key self = Some (JArr detections) ->
  scan_detections self hit alert code = detection_loop hit alert code detections 0.
Proof.
  intros H. unfold scan_detections, getitem. rewrite H.
  rewrite bind_ret_l. cbn [is_None iter]. now rewrite bind_ret_l.
Qed.

Lemma scan_detections_null (self : ScanReport) :
  lookup detect_str_key self = Some JNull ->
  scan_detections self hit alert code = ret 0.
Proof.
  intros H. unfold scan_detections, getitem. rewrite H.
  now rewrite bind_ret_l.
Qed.

Lemma scan_detections_missing (self : ScanReport) :
  lookup detect_str_key self = None ->
  scan_detections self hit alert code = raise (KeyError detect_str_key).
Proof.
  intros H. unfold scan_detections, getitem. now rewrite H.
Qed.

(** What a scan that returns has found, on any report. *)
Lemma scan_detections_returns (self : ScanReport) (c : Z) (t : list event) :
  scan_detections self hit alert code = (Ok c, t) ->
  (c, t) = if existsb (hits hit) (detections_of self) then (code, [alert]) else (0, []).
Proof.
  unfold scan_detections, getitem, detections_of.
  destruct (lookup detect_str_key self) as [x |]; [| discriminate].
  rewrite bind_ret_l.
  destruct x; cbn [is_None iter]; try discriminate;
    try (rewrite bind_ret_l; apply detection_loop_returns).
  intros H. now inversion H.
Qed.
End Detection_scan.

Lemma hits_has_type_1 (ty : string) (detection : json) :
  hits (fun s => String.eqb s ty) detection = has_type [ty] detection.
Proof.
  unfold hits, has_type. destruct (detection_type detection); simpl; [| reflexivity].
  now rewrite orb_false_r.
Qed.

Lemma hits_has_type_2 (ty1 ty2 : string) (detection : json) :
  hits (fun s => String.eqb s ty1 || String.eqb s ty2) detection
  = has_type [ty1; ty2] detection.
Proof.
  unfold hits, has_type. destruct (detection_type detection); simpl; [| reflexivity].
  now rewrite orb_false_r.
Qed.

Lemma existsb_ext_eq {A} (f g : A -> bool) (l : list A) :
  (forall x, f x = g x) -> existsb f l = existsb g l.
Proof. intros H. induction l; simpl; [reflexivity |]. now rewrite H, IHl. Qed.

Lemma scan_detections_list_returns (hit : string -> bool) (alert : event) (code : Z)
    (self : ScanReport) (detections : list json) (c : Z) :
  lookup detect_str_key self = Some (JArr detections) ->
  outcome (scan_detections self hit alert code) = Ok c ->
  scan_detections self hit alert code =
  if existsb (hits hit) detections then (Ok code, [alert]) else (Ok 0, []).
Proof.
  intros Hl Hc. rewrite (scan_detections_list _ _ _ _ _ Hl) in *.
  destruct (detection_loop hit alert code detections 0) as [[c' | e] t] eqn:Hloop;
    [| discriminate].
  apply detection_loop_returns in Hloop.
  destruct (existsb (hits hit) detections); now inversion Hloop.
Qed.

Section Scan_method.
Variables (opening : string) (hit : string -> bool) (alert : event) (code : Z).
Variables (self : ScanReport) (detections : list json).
Hypothesis Hlist : lookup detect_str_key self = Some (JArr detections).
Hypothesis Halert : alert <> Log INFO opening [].

Let run : M Z := scan_method opening self hit alert code.

(** A scan that returns has found a detection exactly when it returns its
    code, having logged its alert, and it returns 0 otherwise. *)
Lemma scan_method_returns (c : Z) :
  outcome run = Ok c ->
  c = (if existsb (hits hit) detections then code else 0)
  /\ (In alert (effects run) <-> existsb (hits hit) detections = true).
Proof.
  unfold run, scan_method, log. rewrite bind_emit. cbn [outcome effects fst snd].
  intros Hc. pose proof (scan_detections_list_returns _ _ _ _ _ _ Hlist Hc) as Hscan.
  rewrite Hscan in Hc |- *.
  destruct (existsb (hits hit) detections); cbn in Hc |- *; inversion Hc; subst c.
  - split; [reflexivity |]. split; [reflexivity | now right; left].
  - split; [reflexivity |].
    split; [| discriminate]. intros [Heq | []]. now symmetry in Heq.
Qed.

(** On detection records, the scan returns. *)
Lemma scan_method_records :
  forallb detection_record detections = true ->
  outcome run = Ok (if existsb (hits hit) detections then code else 0).
Proof.
  intros Hrec. unfold run, scan_method, log. rewrite bind_emit. cbn [outcome fst].
  rewrite (scan_detections_list _ _ _ _ _ Hlist), (detection_loop_records _ _ _ _ _ Hrec).
  now destruct (existsb (hits hit) detections).
Qed.
End Scan_method.

Lemma get_alerts_malware_unfold (self : ScanReport) :
  get_alerts_malware self =
  let scan := scan_detections self (fun s => String.eqb s type_malware)
                malware_alert (value Malware) in
  (outcome scan, Log INFO "Searching for malware in scan report..." [] :: effects scan).
Proof. unfold get_alerts_malware, log. now rewrite bind_emit. Qed.

Lemma get_alerts_secrets_unfold (self : ScanReport) :
  get_alerts_secrets self =
  let scan := scan_detections self (fun s => String.eqb s type_secret)
                secrets_alert (value Secrets) in
  (outcome scan, Log INFO "Searching for leaked secrets in scan report..." [] :: effects scan).
Proof. unfold get_alerts_secrets, log. now rewrite bind_emit. Qed.

Lemma get_alerts_misconfig_unfold (self : ScanReport) :
  get_alerts_misconfig self =
  let scan := scan_detections self
                (fun s => String.eqb s type_misconfig || String.eqb s type_cis)
                misconfig_alert (value Success) in
  (outcome scan, Log INFO "Searching for misconfigurations in scan report..." [] :: effects scan).
Proof. unfold get_alerts_misconfig, log. now rewrite bind_emit. Qed.

Lemma any_malware (detections : list json) :
  existsb (hits (fun s => String.eqb s type_malware)) detections
  = any_of_type [type_malware] detections.
Proof. apply existsb_ext_eq. intros d. apply hits_has_type_1. Qed.

Lemma any_secret (detections : list json) :
  existsb (hits (fun s => String.eqb s type_secret)) detections
  = any_of_type [type_secret] detections.
Proof. apply existsb_ext_eq. intros d. apply hits_has_type_1. Qed.

Lemma any_misconfig (detections : list json) :
  existsb (hits (fun s => String.eqb s type_misconfig || String.eqb s type_cis)) detections
  = any_of_type misconfig_types detections.
Proof. apply existsb_ext_eq. intros d. apply hits_has_type_2. Qed.

(** C5.  On a report whose Detections are a list: a malware scan that
    returns returns Malware, after logging its alert, exactly when some
    detection's type, compared without regard to case, is "malware"; a
    secrets scan that returns returns Secrets, after logging its alert,
    exactly when some type is "secret"; a misconfiguration scan that returns
    returns Success either way and has logged its alert exactly when some
    type is "misconfiguration" or "cis".  On a list of detection records
    (type a string, or missing) all three scans return.  With no detection,
    none of the three signals is raised. *)
Theorem detection_signals (self : ScanReport) (detections : list json) :
  lookup detect_str_key self = Some (JArr detections) ->
  (forall c, outcome (get_alerts_malware self) = Ok c ->
     (c = value Malware <-> any_of_type [type_malware] detections = true) /\
     (In malware_alert (effects (get_alerts_malware self))
      <-> any_of_type [type_malware] detections = true)) /\
  (forall c, outcome (get_alerts_secrets self) = Ok c ->
     (c = value Secrets <-> any_of_type [type_secret] detections = true) /\
     (In secrets_alert (effects (get_alerts_secrets self))
      <-> any_of_type [type_secret] detections = true)) /\
  (forall c, outcome (get_alerts_misconfig self) = Ok c ->
     c = value Success /\
     (In misconfig_alert (effects (get_alerts_misconfig self))
      <-> any_of_type misconfig_types detections = true)) /\
  (forallb detection_record detections = true ->
     outcome (get_alerts_malware self)
       = Ok (if any_of_type [type_malware] detections then value Malware else 0) /\
     outcome (get_alerts_secrets self)
       = Ok (if any_of_type [type_secret] detections then value Secrets else 0) /\
     outcome (get_alerts_misconfig self) = Ok (value Success)) /\
  (detections = [] ->
     outcome (get_alerts_malware self) = Ok 0 /\
     outcome (get_alerts_secrets self) = Ok 0 /\
     outcome (get_alerts_misconfig self) = Ok 0 /\
     ~ In malware_alert (effects (get_alerts_malware self)) /\
     ~ In secrets_alert (effects (get_alerts_secrets self)) /\
     ~ In misconfig_alert (effects (get_alerts_misconfig self))).
Proof.
  intros Hl.
  pose proof (scan_method_returns "Searching for malware in scan report..."
                (fun s => String.eqb s type_malware) malware_alert (value Malware)
                self detections Hl) as Hmal.
  pose proof (scan_method_returns "Searching for leaked secrets in scan report..."
                (fun s => String.eqb s type_secret) secrets_alert (value Secrets)
                self detections Hl) as Hsec.
  pose proof (scan_method_returns "Searching for misconfigurations in scan report..."
                (fun s => String.eqb s type_misconfig || String.eqb s type_cis)
                misconfig_alert (value Success) self detections Hl) as Hmis.
  pose proof (scan_method_records "Searching for malware in scan report..."
                (fun s => String.eqb s type_malware) malware_alert (value Malware)
                self detections Hl) as Rmal.
  pose proof (scan_method_records "Searching for leaked secrets in scan report..."
                (fun s => String.eqb s type_secret) secrets_alert (value Secrets)
                self detections Hl) as Rsec.
  pose proof (scan_method_records "Searching for misconfigurations in scan report..."
                (fun s => String.eqb s type_misconfig || String.eqb s type_cis)
                misconfig_alert (value Success) self detections Hl) as Rmis.
  rewrite any_malware in Hmal, Rmal. rewrite any_secret in Hsec, Rsec.
  rewrite any_misconfig in Hmis, Rmis.
  change (scan_method _ self _ malware_alert _) with (get_alerts_malware self) in *.
  change (scan_method _ self _ secrets_alert _) with (get_alerts_secrets self) in *.
  change (scan_method _ self _ misconfig_alert _) with (get_alerts_misconfig self) in *.
  assert (Amal : malware_alert <> Log INFO "Searching for malware in scan report..." [])
    by discriminate.
  assert (Asec : secrets_alert <> Log INFO "Searching for leaked secrets in scan report..." [])
    by discriminate.
  assert (Amis : misconfig_alert
                 <> Log INFO "Searching for misconfigurations in scan report..." [])
    by discriminate.
  split; [| split; [| split; [| split]]].
  - intros c Hc. destruct (Hmal Amal c Hc) as [-> Halert]. split; [| exact Halert].
    destruct (any_of_type [type_malware] detections); split; auto; discriminate.
  - intros c Hc. destruct (Hsec Asec c Hc) as [-> Halert]. split; [| exact Halert].
    destruct (any_of_type [type_secret] detections); split; auto; discriminate.
  - intros c Hc. destruct (Hmis Amis c Hc) as [-> Halert]. split; [| exact Halert].
    now destruct (any_of_type misconfig_types detections).
  - intros Hrec. rewrite (Rmal Hrec), (Rsec Hrec), (Rmis Hrec).
    repeat split. now destruct (any_of_type misconfig_types detections).
  - intros ->.
    destruct (Hmal Amal 0 (Rmal eq_refl)) as [_ [Imal _]].
    destruct (Hsec Asec 0 (Rsec eq_refl)) as [_ [Isec _]].
    destruct (Hmis Amis 0 (Rmis eq_refl)) as [_ [Imis _]].
    rewrite (Rmal eq_refl), (Rsec eq_refl), (Rmis eq_refl).
    do 3 (split; [reflexivity |]).
    split; [| split]; intros Hin;
      [apply Imal in Hin | apply Isec in Hin | apply Imis in Hin]; discriminate.
Qed.

(** ** The vulnerability score *)

Ltac case_lookup :=
  match goal with
  | |- context [match lookup ?k ?m with _ => _ end] =>
      let E := fresh "E" in destruct (lookup k m) as [[| | | | | |?]|] eqn:E
  | H : context [match lookup ?k ?m with _ => _ end] |- _ =>
      let E := fresh "E" in destruct (lookup k m) as [[| | | | | |?]|] eqn:E
  end.

Lemma resolve_severity_mappings (details : json) :
  scores_are_mappings details = true ->
  resolve_severity details = ret (severity_by_priority details).
Proof.
  destruct details as [| | | | | |d]; try reflexivity.
  unfold scores_are_mappings, mapping_or_absent, resolve_severity,
    severity_by_priority, severity_under, get.
  cbn [isinstance_dict].
  intros H.
  repeat (case_lookup; try discriminate; cbn in H |- *; try reflexivity).
Qed.

Lemma resolve_severity_returns (details s : json) (t : list event) :
  resolve_severity details = (Ok s, t) ->
  s = severity_by_priority details /\ t = [].
Proof.
  destruct details as [| | | | | |d];
    try (intros H; inversion H; split; reflexivity).
  unfold resolve_severity, severity_by_priority, severity_under, get.
  cbn [isinstance_dict].
  intros H.
  repeat (case_lookup; try discriminate; cbn in H |- *;
          try (inversion H; split; reflexivity)).
Qed.

Lemma get_mapping (members : list (string * json)) (key : string) (default : json) :
  get (JObj members) key default =
  ret (match lookup key members with Some v => v | None => default end).
Proof. unfold get. now destruct (lookup key members). Qed.

(** The four [if]s on the lowered severity add the weight of the table. *)
Lemma four_ifs (s : string) (vuln_score : Z) :
  let l := lower s in
  let s1 := if String.eqb l "low" then vuln_score + 20 else vuln_score in
  let s2 := if String.eqb l "medium" then s1 + 100 else s1 in
  let s3 := if String.eqb l "high" then s2 + 500 else s2 in
  (if String.eqb l "critical" then s3 + 2000 else s3) = vuln_score + weight s.
Proof.
  unfold weight. cbv zeta.
  destruct (String.eqb_spec (lower s) "low") as [-> | _]; [reflexivity |].
  destruct (String.eqb_spec (lower s) "medium") as [-> | _]; [reflexivity |].
  destruct (String.eqb_spec (lower s) "high") as [-> | _]; [reflexivity |].
  destruct (String.eqb (lower s) "critical"); lia.
Qed.

(** One iteration on a record with a [Vulnerability] mapping. *)
Lemma vuln_step_mapping (members vuln : list (string * json)) (vuln_score : Z) :
  lookup "Vulnerability" members = Some (JObj vuln) ->
  outcome (vuln_step (JObj members) vuln_score) =
  match outcome (resolve_severity (details_of (JObj members))) with
  | Ok severity =>
      if mapping_or_absent (lookup "Product" vuln) then
        match severity with
        | JStr s => Ok (vuln_score + weight s)
        | _ => Raise AttributeError
        end
      else Raise AttributeError
  | Raise e => Raise e
  end.
Proof.
  intros Hv. unfold vuln_step, details_of. cbv zeta. cbn [getitem]. rewrite Hv.
  rewrite bind_ret_l, !get_mapping, !bind_ret_l.
  rewrite outcome_bind.
  destruct (outcome (resolve_severity _)) as [severity | e]; [| reflexivity].
  destruct (lookup "Product" vuln) as [[| | | | | |product]|];
    cbn [mapping_or_absent]; rewrite bind_ret_l; try reflexivity.
  - rewrite get_mapping, bind_ret_l. unfold log. rewrite bind_emit. cbn [outcome fst].
    destruct severity; try reflexivity.
    cbn [str_lower]. rewrite !bind_ret_l. unfold outcome, ret. cbn [fst].
    f_equal. apply four_ifs.
  - rewrite get_mapping, bind_ret_l. unfold log. rewrite bind_emit. cbn [outcome fst].
    destruct severity; try reflexivity.
    cbn [str_lower]. rewrite !bind_ret_l. unfold outcome, ret. cbn [fst].
    f_equal. apply four_ifs.
Qed.

Lemma vuln_step_returns (vulnerability : json) (vuln_score n : Z) :
  outcome (vuln_step vulnerability vuln_score) = Ok n ->
  n = vuln_score + record_weight vulnerability.
Proof.
  destruct vulnerability as [| | | | | |members]; try discriminate.
  destruct (lookup "Vulnerability" members) as [vuln |] eqn:Hv.
  2:{ unfold vuln_step. cbn [getitem]. rewrite Hv. discriminate. }
  destruct vuln as [| | | | | |vuln];
    try (unfold vuln_step; cbn [getitem]; rewrite Hv; discriminate).
  rewrite (vuln_step_mapping _ _ _ Hv). unfold record_weight.
  destruct (resolve_severity (details_of (JObj members))) as [[severity | e] t] eqn:Hr;
    [| discriminate].
  apply resolve_severity_returns in Hr as [<- _]. cbn [outcome fst].
  destruct (mapping_or_absent _); [| discriminate].
  destruct severity; try discriminate. intros H. now inversion H.
Qed.

Lemma vuln_step_record (vulnerability : json) (vuln_score : Z) :
  vulnerability_record vulnerability = true ->
  outcome (vuln_step vulnerability vuln_score)
  = Ok (vuln_score + record_weight vulnerability).
Proof.
  unfold vulnerability_record.
  destruct vulnerability as [| | | | | |members]; try discriminate.
  destruct (lookup "Vulnerability" members) as [[| | | | | |vuln]|] eqn:Hv;
    try discriminate.
  intros H. apply andb_prop in H as [H Hstr]. apply andb_prop in H as [Hp Hd].
  rewrite (vuln_step_mapping _ _ _ Hv), (resolve_severity_mappings _ Hd), Hp.
  cbn [outcome ret fst]. unfold record_weight.
  now destruct (severity_by_priority (details_of (JObj members))).
Qed.

Lemma vuln_loop_returns (vulnerabilities : list json) (vuln_score n : Z) :
  outcome (vuln_loop vulnerabilities vuln_score) = Ok n ->
  n = vuln_score + total_weight vulnerabilities.
Proof.
  revert vuln_score. induction vulnerabilities as [| v rest IH]; intros vuln_score.
  - cbn. intros H. inversion H. lia.
  - cbn [vuln_loop total_weight]. rewrite outcome_bind.
    destruct (outcome (vuln_step v vuln_score)) as [n1 |] eqn:Hstep; [| discriminate].
    apply vuln_step_returns in Hstep. intros H. apply IH in H. lia.
Qed.

Lemma vuln_loop_records (vulnerabilities : list json) (vuln_score : Z) :
  forallb vulnerability_record vulnerabilities = true ->
  outcome (vuln_loop vulnerabilities vuln_score)
  = Ok (vuln_score + total_weight vulnerabilities).
Proof.
  revert vuln_score. induction vulnerabilities as [| v rest IH]; intros vuln_score H.
  - cbn. f_equal. lia.
  - cbn [forallb] in H. apply andb_prop in H as [Hv Hrest].
    cbn [vuln_loop total_weight]. rewrite outcome_bind, (vuln_step_record _ _ Hv).
    rewrite (IH _ Hrest). f_equal. lia.
Qed.

Lemma get_alerts_vuln_list (self : ScanReport) (vulnerabilities : list json) :
  lookup vuln_str_key_1 self = Some (JArr vulnerabilities) ->
  outcome (get_alerts_vuln self) = outcome (vuln_loop vulnerabilities 0).
Proof.
  intros H. unfold get_alerts_vuln, log. rewrite bind_emit. cbn [outcome fst getitem].
  rewrite H, bind_ret_l. cbn [is_None iter]. now rewrite bind_ret_l.
Qed.

Lemma get_alerts_vuln_null (self : ScanReport) :
  lookup vuln_str_key_1 self = Some JNull ->
  outcome (get_alerts_vuln self) = Ok 0.
Proof.
  intros H. unfold get_alerts_vuln, log. rewrite bind_emit. cbn [outcome fst getitem].
  now rewrite H, bind_ret_l.
Qed.

Lemma get_alerts_vuln_missing (self : ScanReport) :
  lookup vuln_str_key_1 self = None ->
  outcome (get_alerts_vuln self) = Raise (KeyError vuln_str_key_1).
Proof.
  intros H. unfold get_alerts_vuln, log. rewrite bind_emit. cbn [outcome fst getitem].
  now rewrite H.
Qed.

(** C3.  On a report whose Vulnerabilities are a list, a score the scan
    returns is the sum, over all records, of the weight of the record's
    resolved severity, compared without regard to case: low 20, medium 100,
    high 500, critical 2000, anything else (unrecognized, empty, missing) 0.
    The scan does return that sum when every record can be scored, and 0
    when there is no record. *)
Theorem vulnerability_score_is_weighted_sum
    (self : ScanReport) (vulnerabilities : list json) :
  lookup vuln_str_key_1 self = Some (JArr vulnerabilities) ->
  (forall n, outcome (get_alerts_vuln self) = Ok n ->
     n = total_weight vulnerabilities) /\
  (forallb vulnerability_record vulnerabilities = true ->
     outcome (get_alerts_vuln self) = Ok (total_weight vulnerabilities)) /\
  (vulnerabilities = [] -> outcome (get_alerts_vuln self) = Ok 0).
Proof.
  intros Hl. rewrite (get_alerts_vuln_list _ _ Hl). repeat split.
  - intros n Hn. now apply vuln_loop_returns in Hn.
  - intros Hrec. now rewrite (vuln_loop_records _ _ Hrec).
  - now intros ->.
Qed.

(** The weight table on the four severities, in any case, and off them. *)
Lemma weight_table :
  weight "low" = 20 /\ weight "medium" = 100 /\ weight "high" = 500 /\
  weight "critical" = 2000 /\ weight "LOW" = 20 /\ weight "Medium" = 100 /\
  weight "HiGh" = 500 /\ weight "CRITICAL" = 2000 /\
  weight "" = 0 /\ weight "negligible" = 0.
Proof. repeat split. Qed.

Lemma section_null_or_list (record : json -> bool) (section : option json) :
  section_of record section = true ->
  section = Some JNull \/
  exists items, section = Some (JArr items) /\ forallb record items = true.
Proof.
  destruct section as [[| | | | |items|]|]; try discriminate.
  - now left.
  - intros H. right. now exists items.
Qed.

(** The first record without [Vulnerability] stops the scan. *)
Lemma vuln_loop_missing_key (readable rest : list json)
    (members : list (string * json)) (vuln_score : Z) :
  forallb vulnerability_record readable = true ->
  lookup "Vulnerability" members = None ->
  outcome (vuln_loop (readable ++ JObj members :: rest) vuln_score)
  = Raise (KeyError "Vulnerability").
Proof.
  revert vuln_score. induction readable as [| v vs IH]; intros vuln_score Hrec Hkey.
  - cbn [app vuln_loop]. rewrite outcome_bind.
    unfold vuln_step. cbn [getitem]. now rewrite Hkey.
  - cbn [forallb] in Hrec. apply andb_prop in Hrec as [Hv Hvs].
    cbn [app vuln_loop]. rewrite outcome_bind, (vuln_step_record _ _ Hv).
    now apply IH.
Qed.

(** C2, as the code has it.  On a report whose two sections are null or
    lists of records the scans can read, all four scans return: a
    vulnerability record is a mapping with a [Vulnerability] mapping whose
    [Product], [cvss_v3_score] and [cvss_v2_score], where present, are
    mappings and whose severity resolves to a string, every other member
    being optional; a detection record is a mapping whose [Detection], where
    present, is a mapping whose [Type], where present, is a string.  A
    detection without [Detection] or [Type] is skipped.  A vulnerability
    record without [Vulnerability] is not: the scan raises [KeyError] on it.
    A scan raises [KeyError] when its top-level key is absent. *)
Theorem evaluation_returns_on_well_formed_reports (self : ScanReport) :
  (well_formed_report self = true ->
     exists score malware secrets,
       outcome (get_alerts_vuln self) = Ok score /\
       outcome (get_alerts_malware self) = Ok malware /\
       outcome (get_alerts_secrets self) = Ok secrets /\
       outcome (get_alerts_misconfig self) = Ok (value Success)) /\
  (forall hit alert code detection rest det_code,
     detection_record detection = true -> detection_type detection = None ->
     detection_loop hit alert code (detection :: rest) det_code
     = detection_loop hit alert code rest det_code) /\
  (forall readable members rest,
     lookup vuln_str_key_1 self = Some (JArr (readable ++ JObj members :: rest)) ->
     forallb vulnerability_record readable = true ->
     lookup "Vulnerability" members = None ->
     outcome (get_alerts_vuln self) = Raise (KeyError "Vulnerability")) /\
  (lookup vuln_str_key_1 self = None ->
     outcome (get_alerts_vuln self) = Raise (KeyError vuln_str_key_1)) /\
  (lookup detect_str_key self = None ->
     outcome (get_alerts_malware self) = Raise (KeyError detect_str_key) /\
     outcome (get_alerts_secrets self) = Raise (KeyError detect_str_key) /\
     outcome (get_alerts_misconfig self) = Raise (KeyError detect_str_key)).
Proof.
  split; [| split; [| split; [| split]]].
  - unfold well_formed_report. intros H. apply andb_prop in H as [Hv Hd].
    assert (Hscore : exists score, outcome (get_alerts_vuln self) = Ok score).
    { apply section_null_or_list in Hv as [Hv | (vs & Hv & Hrec)].
      - exists 0. now apply get_alerts_vuln_null.
      - exists (total_weight vs).
        now rewrite (get_alerts_vuln_list _ _ Hv), (vuln_loop_records _ _ Hrec). }
    destruct Hscore as [score Hscore]. exists score.
    rewrite get_alerts_malware_unfold, get_alerts_secrets_unfold,
      get_alerts_misconfig_unfold. cbn [outcome fst].
    apply section_null_or_list in Hd as [Hd | (ds & Hd & Hrec)].
    + rewrite !(scan_detections_null _ _ _ _ Hd). now exists 0, 0.
    + rewrite !(scan_detections_list _ _ _ _ _ Hd).
      rewrite !(detection_loop_records _ _ _ _ _ Hrec).
      exists (if existsb (hits (fun s => String.eqb s type_malware)) ds
              then value Malware else 0),
             (if existsb (hits (fun s => String.eqb s type_secret)) ds
              then value Secrets else 0).
      repeat split; [assumption | | |]; now destruct (existsb _ ds).
  - intros hit alert code detection rest det_code Hrec Hty.
    apply detection_loop_skip; [assumption |]. unfold hits. now rewrite Hty.
  - intros readable members rest Hl Hrec Hkey.
    rewrite (get_alerts_vuln_list _ _ Hl). now apply vuln_loop_missing_key.
  - apply get_alerts_vuln_missing.
  - intros H. rewrite get_alerts_malware_unfold, get_alerts_secrets_unfold,
      get_alerts_misconfig_unfold. cbn [outcome fst].
    now rewrite !(scan_detections_missing _ _ _ _ H).
Qed.

(** ** Authentication *)

(** One POST whatever the answer, and the outcome by the status. *)
Lemma get_api_token_unfold (w : World) (self : ScanImage) :
  get_api_token w self =
  (if accepted (status_code (token_endpoint w)) then
     match decoded (token_endpoint w) with
     | Ok body => outcome (getitem body "access_token")
     | Raise e => Raise e
     end
   else
     Raise (APIError ("POST " ++ auth_url self ++ " "
                      ++ str_of_int (status_code (token_endpoint w)))%string),
   token_request self).
Proof.
  unfold get_api_token, log, requests_post, token_request, accepted.
  cbv zeta. cbn.
  destruct ((status_code (token_endpoint w) =? 200)
            || (status_code (token_endpoint w) =? 201)); [| reflexivity].
  destruct (decoded (token_endpoint w)) as [body | e]; [| reflexivity].
  cbn. destruct body; try reflexivity.
  cbn. now destruct (lookup "access_token" members).
Qed.

(** A preparation that returns is its image and the effects of the steps
    before authentication. *)
Lemma prepare_returns (w : World) (args : Args) (self : ScanImage) :
  outcome (prepare w args) = Ok self ->
  prepare w args = (Ok self, effects (prepare w args)).
Proof. intros H. now rewrite (pair_outcome_effects (prepare w args)), H. Qed.

(** ** Polling *)

Section Poll_loop.
Variables (w : World) (get_url tok : string) (sleep_seconds : Z).

Let authorization : string := ("Bearer " ++ tok)%string.
Let not_ready (k : nat) : Prop := status_code (report_endpoint w k) <> 200.
Let unavailable (resp : Response ScanReport) : exn :=
  APIError ("GET " ++ get_url ++ " " ++ str_of_int (status_code resp))%string.

(** With no attempt left the loop raises: the report-unavailable error
    when an answer was seen, an unbound [resp] otherwise. *)
Lemma poll_loop_nil (resp : option (Response ScanReport)) :
  poll_loop w get_url (JStr tok) sleep_seconds [] resp =
  (Raise (match resp with
          | Some resp => unavailable resp
          | None => UnboundLocalError "resp"
          end),
   [Log ERROR "Retries exhausted" []]).
Proof. now destruct resp. Qed.

(** An attempt answered by something else than 200 goes on to the next. *)
Lemma poll_loop_not_ready (count : nat) (rest : list nat)
    (resp : option (Response ScanReport)) :
  not_ready count ->
  let next := poll_loop w get_url (JStr tok) sleep_seconds rest
                (Some (report_endpoint w count)) in
  poll_loop w get_url (JStr tok) sleep_seconds (count :: rest) resp =
  (outcome next,
   Sleep sleep_seconds :: Log DEBUG "retry count %s" [JInt (Z.of_nat count)]
     :: HttpGet get_url authorization
     :: Log INFO "Scan report is not ready yet, retrying in %s seconds" [JInt sleep_seconds]
     :: effects next).
Proof.
  unfold not_ready. intros H. cbn.
  destruct (Z.eqb_spec (status_code (report_endpoint w count)) 200) as [E | _];
    [contradiction |].
  cbn. now destruct (poll_loop _ _ _ _ rest _).
Qed.

(** An attempt answered by 200 returns the decoded report and ends the
    loop. *)
Lemma poll_loop_ready (count : nat) (rest : list nat)
    (resp : option (Response ScanReport)) :
  status_code (report_endpoint w count) = 200 ->
  poll_loop w get_url (JStr tok) sleep_seconds (count :: rest) resp =
  (decoded (report_endpoint w count),
   [Sleep sleep_seconds; Log DEBUG "retry count %s" [JInt (Z.of_nat count)];
    HttpGet get_url authorization]).
Proof. intros H. cbn. now rewrite H. Qed.

(** [n] attempts in a row that are not answered by 200: the loop raises
    the report-unavailable error with the status of the last answer, after
    [n] sleeps, each followed by its GET. *)
Lemma poll_loop_exhausted (n first : nat) (resp : option (Response ScanReport)) :
  (forall k, (first <= k < first + n)%nat -> not_ready k) ->
  let run := poll_loop w get_url (JStr tok) sleep_seconds (seq first n) resp in
  outcome run =
    Raise (match n with
           | O => match resp with
                  | Some resp => unavailable resp
                  | None => UnboundLocalError "resp"
                  end
           | S m => unavailable (report_endpoint w (first + m))
           end)
  /\ io_effects run = attempts sleep_seconds get_url authorization n.
Proof.
  revert first resp. induction n as [| n IH]; intros first resp Hnot.
  - cbn [seq]. now rewrite poll_loop_nil.
  - cbn [seq]. rewrite poll_loop_not_ready by (apply Hnot; lia).
    destruct (IH (S first) (Some (report_endpoint w first))) as [Ho He].
    { intros k Hk. apply Hnot. lia. }
    unfold io_effects in *. cbn [outcome effects fst snd filter is_io attempts].
    split; [| now rewrite He].
    rewrite Ho. destruct n as [| m].
    + now rewrite Nat.add_0_r.
    + do 3 f_equal. lia.
Qed.

(** The first 200, at attempt [first + k]: the loop returns what that
    answer decodes to, after [k + 1] sleeps, each followed by its GET, and
    whatever the attempts that were left would have been answered. *)
Lemma poll_loop_first_200 (k first more : nat) (resp : option (Response ScanReport)) :
  (forall j, (first <= j < first + k)%nat -> not_ready j) ->
  status_code (report_endpoint w (first + k)) = 200 ->
  let run := poll_loop w get_url (JStr tok) sleep_seconds
               (seq first (k + S more)) resp in
  outcome run = decoded (report_endpoint w (first + k))
  /\ io_effects run = attempts sleep_seconds get_url authorization (S k).
Proof.
  revert first resp. induction k as [| k IH]; intros first resp Hnot Hok.
  - rewrite Nat.add_0_r in Hok. cbn [Nat.add seq].
    rewrite poll_loop_ready by assumption. now rewrite Nat.add_0_r.
  - cbn [Nat.add seq]. rewrite poll_loop_not_ready by (apply Hnot; lia).
    destruct (IH (S first) (Some (report_endpoint w first))) as [Ho He].
    { intros j Hj. apply Hnot. lia. }
    { now replace (S first + k)%nat with (first + S k)%nat by lia. }
    unfold io_effects in *. cbn [outcome effects fst snd filter is_io attempts].
    split; [| now rewrite He].
    rewrite Ho. do 2 f_equal. lia.
Qed.
End Poll_loop.

Lemma get_scanreport_unfold (w : World) (self : ScanImage) (token : json) (retry_count : Z) :
  let loop := poll_loop w (report_url self) token 10 (range retry_count) None in
  get_scanreport w self token retry_count =
  (outcome loop, Log INFO "Downloading Image Scan Report" [] :: effects loop).
Proof. unfold get_scanreport, log. cbv zeta. now rewrite bind_emit. Qed.

(** No attempt at all: [resp] is read before anything was assigned to it. *)
Lemma get_scanreport_no_attempt (w : World) (self : ScanImage) (token : json)
    (retry_count : Z) :
  retry_count <= 0 ->
  get_scanreport w self token retry_count =
  (Raise (UnboundLocalError "resp"),
   [Log INFO "Downloading Image Scan Report" []; Log ERROR "Retries exhausted" []]).
Proof.
  intros H. rewrite get_scanreport_unfold. unfold range.
  replace (Z.to_nat retry_count) with 0%nat by lia. reflexivity.
Qed.

(** The first 200 wins: with a budget that reaches attempt [k], the first
    one answered by 200, the poller returns what that answer decodes to; it
    has slept the poll interval before each of its [k + 1] GETs and made no
    other. *)
Lemma get_scanreport_first_200 (w : World) (self : ScanImage) (tok : string)
    (retry_count : Z) (k : nat) :
  Z.of_nat k < retry_count ->
  (forall j, (j < k)%nat -> status_code (report_endpoint w j) <> 200) ->
  status_code (report_endpoint w k) = 200 ->
  let run := get_scanreport w self (JStr tok) retry_count in
  outcome run = decoded (report_endpoint w k)
  /\ io_effects run = attempts 10 (report_url self) ("Bearer " ++ tok)%string (S k).
Proof.
  intros Hk Hnot Hok. cbv zeta. rewrite get_scanreport_unfold. cbv zeta.
  unfold range.
  replace (Z.to_nat retry_count) with (k + S (Z.to_nat retry_count - S k))%nat by lia.
  destruct (poll_loop_first_200 w (report_url self) tok 10 k 0
              (Z.to_nat retry_count - S k) None) as [Ho He].
  - intros j Hj. apply Hnot. lia.
  - assumption.
  - split; [exact Ho | exact He].
Qed.

(** The budget exhausted: after [retry_count >= 1] attempts none of which
    was answered by 200, the poller raises the report-unavailable error with
    the status of the last answer; it has slept the poll interval before each
    of its GETs. *)
Lemma get_scanreport_exhausted (w : World) (self : ScanImage) (tok : string)
    (retry_count : Z) :
  1 <= retry_count ->
  (forall j, Z.of_nat j < retry_count -> status_code (report_endpoint w j) <> 200) ->
  let run := get_scanreport w self (JStr tok) retry_count in
  let last := report_endpoint w (Z.to_nat retry_count - 1) in
  outcome run =
    Raise (APIError ("GET " ++ report_url self ++ " " ++ str_of_int (status_code last))%string)
  /\ io_effects run =
     attempts 10 (report_url self) ("Bearer " ++ tok)%string (Z.to_nat retry_count).
Proof.
  intros Hn Hnot. cbv zeta. rewrite get_scanreport_unfold. cbv zeta. unfold range.
  destruct (poll_loop_exhausted w (report_url self) tok 10 (Z.to_nat retry_count) 0 None)
    as [Ho He].
  - intros j Hj. apply Hnot. lia.
  - split; [| exact He].
    cbn [outcome fst] in *. rewrite Ho.
    destruct (Z.to_nat retry_count) as [| m] eqn:E; [lia |].
    cbn [Nat.add]. now replace (S m - 1)%nat with m by lia.
Qed.

(** ** The run *)

Lemma outcome_decide (w : World) (args : Args) (f_vuln_score f_secrets f_malware : Z) :
  outcome (decide w args f_vuln_score f_secrets f_malware) =
  if f_secrets =? value Secrets then Raise (SystemExit (value Secrets))
  else if f_malware =? value Malware then Raise (SystemExit (value Malware))
  else match int_of_str w (score args) with
       | Ok threshold =>
           if f_vuln_score >=? threshold then Raise (SystemExit (value Vulnerability))
           else Raise (SystemExit (value Success))
       | Raise e => Raise e
       end.
Proof.
  unfold decide.
  destruct (f_secrets =? value Secrets); [reflexivity |].
  destruct (f_malware =? value Malware); [reflexivity |].
  unfold lift. destruct (int_of_str w (score args)) as [threshold | e]; [| reflexivity].
  cbn. now destruct (f_vuln_score >=? threshold).
Qed.

Lemma outcome_assess (w : World) (args : Args) (scan_report : ScanReport) :
  outcome (assess w args scan_report) =
  match outcome (get_alerts_vuln scan_report) with
  | Ok f_vuln_score =>
      match outcome (get_alerts_secrets scan_report) with
      | Ok f_secrets =>
          match outcome (get_alerts_malware scan_report) with
          | Ok f_malware =>
              match outcome (get_alerts_misconfig scan_report) with
              | Ok _ => outcome (decide w args f_vuln_score f_secrets f_malware)
              | Raise e => Raise e
              end
          | Raise e => Raise e
          end
      | Raise e => Raise e
      end
  | Raise e => Raise e
  end.
Proof.
  unfold assess. rewrite outcome_bind.
  destruct (outcome (get_alerts_vuln scan_report)); [| reflexivity].
  rewrite outcome_bind.
  destruct (outcome (get_alerts_secrets scan_report)); [| reflexivity].
  rewrite outcome_bind.
  destruct (outcome (get_alerts_malware scan_report)); [| reflexivity].
  rewrite outcome_bind.
  now destruct (outcome (get_alerts_misconfig scan_report)).
Qed.

(** Once the report is in hand, the status of the run is that of its
    assessment. *)
Lemma exit_code_main_assess (w : World) (args : Args) (scan_report : ScanReport) :
  outcome (acquire w args) = Ok scan_report ->
  exit_code (main w args) = exit_code (guarded (assess w args scan_report)).
Proof.
  intros H. unfold main. rewrite !exit_code_guarded, outcome_bind. now rewrite H.
Qed.

Lemma get_alerts_secrets_returns (self : ScanReport) (c : Z) :
  outcome (get_alerts_secrets self) = Ok c ->
  c = if any_of_type [type_secret] (detections_of self) then value Secrets else 0.
Proof.
  rewrite get_alerts_secrets_unfold. cbn [outcome fst].
  destruct (scan_detections self _ secrets_alert (value Secrets)) as [[c' | e] t] eqn:Hs;
    [| discriminate].
  apply scan_detections_returns in Hs. rewrite any_secret in Hs.
  intros H. inversion H; subst.
  destruct (any_of_type [type_secret] (detections_of self)); now inversion Hs.
Qed.

Lemma get_alerts_malware_returns (self : ScanReport) (c : Z) :
  outcome (get_alerts_malware self) = Ok c ->
  c = if any_of_type [type_malware] (detections_of self) then value Malware else 0.
Proof.
  rewrite get_alerts_malware_unfold. cbn [outcome fst].
  destruct (scan_detections self _ malware_alert (value Malware)) as [[c' | e] t] eqn:Hs;
    [| discriminate].
  apply scan_detections_returns in Hs. rewrite any_malware in Hs.
  intros H. inversion H; subst.
  destruct (any_of_type [type_malware] (detections_of self)); now inversion Hs.
Qed.

(** C1.  For a run that has its report and whose four scans return, with an
    integer for threshold, the process ends with the status of the first
    match: Secrets (3) when a detection of type "secret" is present, also
    with malware present; else Malware (2) when one of type "malware" is
    present; else Vulnerability (1) when the score is at least the
    threshold; else Success (0). *)
Theorem exit_code_by_first_match (w : World) (args : Args) (scan_report : ScanReport)
    (threshold f_vuln_score f_secrets f_malware f_misconfig : Z) :
  outcome (acquire w args) = Ok scan_report ->
  outcome (get_alerts_vuln scan_report) = Ok f_vuln_score ->
  outcome (get_alerts_secrets scan_report) = Ok f_secrets ->
  outcome (get_alerts_malware scan_report) = Ok f_malware ->
  outcome (get_alerts_misconfig scan_report) = Ok f_misconfig ->
  int_of_str w (score args) = Ok threshold ->
  exit_code (main w args) =
  value (first_match (any_of_type [type_secret] (detections_of scan_report))
                     (any_of_type [type_malware] (detections_of scan_report))
                     f_vuln_score threshold).
Proof.
  intros Hacq Hv Hs Hm Hc Ht.
  rewrite (exit_code_main_assess _ _ _ Hacq), exit_code_guarded, outcome_assess.
  rewrite Hv, Hs, Hm, Hc, outcome_decide, Ht.
  apply get_alerts_secrets_returns in Hs. apply get_alerts_malware_returns in Hm.
  subst f_secrets f_malware. unfold first_match.
  destruct (any_of_type [type_secret] (detections_of scan_report)); [reflexivity |].
  destruct (any_of_type [type_malware] (detections_of scan_report)); [reflexivity |].
  cbn. now destruct (f_vuln_score >=? threshold).
Qed.

Lemma get_api_token_effects (w : World) (self : ScanImage) :
  effects (get_api_token w self) = token_request self.
Proof. now rewrite get_api_token_unfold. Qed.

(** C10.  With a retry count of 0 the polling loop runs no attempt, and the
    poller fails on the unbound [resp] instead of raising the
    report-unavailable error.  The run ends with ScriptFailure (10) through
    the clause for [Exception]: the clause for [APIError] alone lets the
    error through. *)
Theorem zero_retries_unbound_resp (w : World) (args : Args) (self : ScanImage)
    (token : json) :
  retry_count args = 0 ->
  outcome (prepare w args) = Ok self ->
  outcome (get_api_token w self) = Ok token ->
  get_scanreport w self token (retry_count args) =
    (Raise (UnboundLocalError "resp"),
     [Log INFO "Downloading Image Scan Report" []; Log ERROR "Retries exhausted" []]) /\
  io_effects (get_scanreport w self token (retry_count args)) = [] /\
  exit_code (main w args) = value ScriptFailure /\
  effects (main w args) =
    effects (prepare w args) ++ token_request self ++
    [Log INFO "Downloading Image Scan Report" []; Log ERROR "Retries exhausted" [];
     Log ERROR "Unknown error" []] /\
  outcome (try_except (scan_report <- acquire w args ;; assess w args scan_report)
             [(is_APIError,
               log ERROR "Unable to scan" [] ;; sys_exit (value ScriptFailure))])
  = Raise (UnboundLocalError "resp").
Proof.
  intros H0 Hprep Htok.
  assert (Hpoll : get_scanreport w self token (retry_count args) =
            (Raise (UnboundLocalError "resp"),
             [Log INFO "Downloading Image Scan Report" [];
              Log ERROR "Retries exhausted" []]))
    by (apply get_scanreport_no_attempt; lia).
  assert (Hbody : (scan_report <- acquire w args ;; assess w args scan_report) =
            (Raise (UnboundLocalError "resp"),
             effects (prepare w args) ++ token_request self ++
             [Log INFO "Downloading Image Scan Report" [];
              Log ERROR "Retries exhausted" []])).
  { unfold acquire. rewrite (prepare_returns _ _ _ Hprep), bind_ok.
    rewrite (pair_outcome_effects (get_api_token w self)), Htok, get_api_token_effects.
    cbn [bind]. now rewrite Hpoll. }
  repeat split.
  - exact Hpoll.
  - now rewrite Hpoll.
  - unfold main. now rewrite Hbody.
  - unfold main. rewrite Hbody. cbn [guarded try_except handler_for is_APIError is_Exception
      log emit sys_exit raise bind effects snd]. now rewrite <- !app_assoc.
  - now rewrite Hbody.
Qed.

(** C6, at a retry count of 0: the poller raises an error that is not the
    report-unavailable error, whatever the world and the token. *)
Theorem poller_without_attempt_is_not_unavailable (w : World) (self : ScanImage)
    (token : json) :
  outcome (get_scanreport w self token 0) = Raise (UnboundLocalError "resp") /\
  is_APIError (UnboundLocalError "resp") = false.
Proof.
  split; [| reflexivity]. now rewrite get_scanreport_no_attempt by lia.
Qed.

(** ** Misconfiguration and the exit code *)

(** A detection of a misconfiguration type is a detection record, and is
    neither a secret nor malware. *)
Lemma misconfig_is_skipped (detection : json) :
  has_type misconfig_types detection = true ->
  detection_record detection = true /\
  hits (fun s => String.eqb s type_secret) detection = false /\
  hits (fun s => String.eqb s type_malware) detection = false.
Proof.
  unfold has_type, hits, detection_record, detection_type.
  destruct detection as [| | | | | |members]; try discriminate.
  destruct (lookup "Detection" members) as [[| | | | | |d]|]; try discriminate.
  destruct (lookup "Type" d) as [[| | | |s| |]|]; try discriminate.
  cbn [existsb misconfig_types]. intros H. split; [reflexivity |].
  destruct (String.eqb_spec (lower s) type_misconfig) as [-> | _]; [now split |].
  destruct (String.eqb_spec (lower s) type_cis) as [-> | _]; [now split |].
  discriminate.
Qed.

(** A scan does not see the detections it skips. *)
Lemma detection_loop_filter (hit : string -> bool) (alert : event) (code : Z)
    (keep : json -> bool) (detections : list json) (det_code : Z) :
  (forall d, keep d = false -> detection_record d = true /\ hits hit d = false) ->
  detection_loop hit alert code detections det_code
  = detection_loop hit alert code (filter keep detections) det_code.
Proof.
  intros Hskip. induction detections as [| d rest IH]; [reflexivity |].
  cbn [filter]. destruct (keep d) eqn:Hk.
  - cbn [detection_loop].
    destruct (detection_step hit alert code d) as [[[c |] | e] t]; cbn [bind];
      try reflexivity.
    now rewrite IH.
  - destruct (Hskip d Hk) as [Hd Hh]. now rewrite detection_loop_skip.
Qed.

Lemma scan_ignores_misconfig (hit : string -> bool) (alert : event) (code : Z)
    (r1 r2 : ScanReport) (d1 d2 : list json) :
  (forall d, has_type misconfig_types d = true -> hits hit d = false) ->
  lookup detect_str_key r1 = Some (JArr d1) ->
  lookup detect_str_key r2 = Some (JArr d2) ->
  filter not_misconfig d1 = filter not_misconfig d2 ->
  scan_detections r1 hit alert code = scan_detections r2 hit alert code.
Proof.
  intros Hhit H1 H2 Hsame.
  rewrite (scan_detections_list _ _ _ _ _ H1), (scan_detections_list _ _ _ _ _ H2).
  assert (Hskip : forall d, not_misconfig d = false ->
                            detection_record d = true /\ hits hit d = false).
  { unfold not_misconfig. intros d Hd. apply negb_false_iff in Hd. split.
    - now apply misconfig_is_skipped.
    - now apply Hhit. }
  rewrite (detection_loop_filter _ _ _ _ d1 _ Hskip).
  rewrite (detection_loop_filter _ _ _ _ d2 _ Hskip).
  now rewrite Hsame.
Qed.

Lemma get_alerts_vuln_same (r1 r2 : ScanReport) :
  lookup vuln_str_key_1 r1 = lookup vuln_str_key_1 r2 ->
  get_alerts_vuln r1 = get_alerts_vuln r2.
Proof. intros H. unfold get_alerts_vuln, getitem. now rewrite H. Qed.

Lemma all_misconfig_none_else (detections : list json) :
  forallb (has_type misconfig_types) detections = true ->
  forallb detection_record detections = true /\
  any_of_type [type_secret] detections = false /\
  any_of_type [type_malware] detections = false.
Proof.
  induction detections as [| d rest IH]; [now repeat split |].
  cbn [forallb]. intros H. apply andb_prop in H as [Hd Hrest].
  destruct (IH Hrest) as (Hrec & Hs & Hm).
  destruct (misconfig_is_skipped d Hd) as (Hdrec & Hds & Hdm).
  rewrite hits_has_type_1 in Hds, Hdm.
  unfold any_of_type in *. cbn [existsb forallb].
  now rewrite Hdrec, Hrec, Hds, Hs, Hdm, Hm.
Qed.

(** C8, as the code has it.  Two runs whose reports differ only in
    detections of type "misconfiguration" or "cis", with the same
    vulnerabilities, the same other detections in the same order and the same
    threshold, end with the same status, provided the misconfiguration scan
    returns on both reports.  And a run whose report has only
    misconfiguration detections and a score below the threshold ends with
    Success (0). *)
Theorem exit_code_ignores_misconfig :
  (forall (w1 w2 : World) (args : Args) (r1 r2 : ScanReport) (d1 d2 : list json)
          (c1 c2 : Z),
     outcome (acquire w1 args) = Ok r1 ->
     outcome (acquire w2 args) = Ok r2 ->
     int_of_str w1 (score args) = int_of_str w2 (score args) ->
     lookup vuln_str_key_1 r1 = lookup vuln_str_key_1 r2 ->
     lookup detect_str_key r1 = Some (JArr d1) ->
     lookup detect_str_key r2 = Some (JArr d2) ->
     filter not_misconfig d1 = filter not_misconfig d2 ->
     outcome (get_alerts_misconfig r1) = Ok c1 ->
     outcome (get_alerts_misconfig r2) = Ok c2 ->
     exit_code (main w1 args) = exit_code (main w2 args)) /\
  (forall (w : World) (args : Args) (r : ScanReport) (detections : list json)
          (f_vuln_score threshold : Z),
     outcome (acquire w args) = Ok r ->
     lookup detect_str_key r = Some (JArr detections) ->
     forallb (has_type misconfig_types) detections = true ->
     outcome (get_alerts_vuln r) = Ok f_vuln_score ->
     int_of_str w (score args) = Ok threshold ->
     f_vuln_score < threshold ->
     exit_code (main w args) = value Success).
Proof.
  split.
  - intros w1 w2 args r1 r2 d1 d2 c1 c2 Ha1 Ha2 Hint Hv H1 H2 Hsame Hc1 Hc2.
    rewrite (exit_code_main_assess _ _ _ Ha1), (exit_code_main_assess _ _ _ Ha2).
    rewrite !exit_code_guarded, !outcome_assess, Hc1, Hc2.
    rewrite (get_alerts_vuln_same _ _ Hv).
    rewrite !get_alerts_secrets_unfold, !get_alerts_malware_unfold. cbn [outcome fst].
    rewrite (scan_ignores_misconfig _ secrets_alert (value Secrets) r1 r2 d1 d2);
      try assumption; [| intros d Hd; now apply misconfig_is_skipped].
    rewrite (scan_ignores_misconfig _ malware_alert (value Malware) r1 r2 d1 d2);
      try assumption; [| intros d Hd; now apply misconfig_is_skipped].
    destruct (outcome (get_alerts_vuln r2)); [| reflexivity].
    destruct (outcome (scan_detections r2 _ secrets_alert _)); [| reflexivity].
    destruct (outcome (scan_detections r2 _ malware_alert _)); [| reflexivity].
    now rewrite !outcome_decide, Hint.
  - intros w args r detections f_vuln_score threshold Ha Hd Hall Hv Ht Hlt.
    destruct (all_misconfig_none_else _ Hall) as (Hrec & Hs & Hm).
    rewrite (exit_code_main_assess _ _ _ Ha), exit_code_guarded, outcome_assess, Hv.
    rewrite get_alerts_secrets_unfold, get_alerts_malware_unfold,
      get_alerts_misconfig_unfold. cbn [outcome fst].
    rewrite !(scan_detections_list _ _ _ _ _ Hd).
    rewrite !(detection_loop_records _ _ _ _ _ Hrec).
    rewrite any_secret, any_malware, Hs, Hm. unfold outcome at 1 2 3. cbn [fst].
    destruct (existsb _ detections); cbn [fst];
      rewrite outcome_decide, Ht; cbn;
      destruct (Z.geb_spec f_vuln_score threshold); try lia; reflexivity.
Qed.

(** ** The properties on sample runs *)

Import Examples.

(** A run with a secret and malware in its report ends with Secrets. *)
Lemma exit_code_by_first_match_secret_and_malware :
  exit_code (main (world token_ok 2 secret_and_malware) (args 5)) = value Secrets.
Proof.
  exact (exit_code_by_first_match
           (world token_ok 2 secret_and_malware) (args 5) secret_and_malware
           500 500 3 2 0
           eq_refl eq_refl eq_refl eq_refl eq_refl eq_refl).
Defined.

(** A vulnerability record without [Vulnerability] makes the vulnerability
    scan raise, and a detection whose type is not a string makes the three
    detection scans raise, on a report that has both top-level keys. *)
Lemma malformed_record_aborts_evaluation :
  lookup vuln_str_key_1 malformed = Some (JArr [JObj []]) /\
  lookup detect_str_key malformed = Some (JArr [detection (JInt 7)]) /\
  outcome (get_alerts_vuln malformed) = Raise (KeyError "Vulnerability") /\
  outcome (get_alerts_malware malformed) = Raise AttributeError /\
  outcome (get_alerts_secrets malformed) = Raise AttributeError /\
  outcome (get_alerts_misconfig malformed) = Raise AttributeError /\
  exit_code (main (world token_ok 0 malformed) (args 1)) = value ScriptFailure.
Proof. repeat split. Qed.

(** A report of records with members missing: every scan returns. *)
Lemma evaluation_returns_on_sparse_report :
  exists score malware secrets,
    let r := report [JObj [("Vulnerability", JObj [])]; vulnerability []]
                    [JObj []; JObj [("Detection", JObj [])]; detection (JStr "CIS")] in
    outcome (get_alerts_vuln r) = Ok score /\
    outcome (get_alerts_malware r) = Ok malware /\
    outcome (get_alerts_secrets r) = Ok secrets /\
    outcome (get_alerts_misconfig r) = Ok (value Success).
Proof.
  exact (proj1 (evaluation_returns_on_well_formed_reports
                  (report [JObj [("Vulnerability", JObj [])]; vulnerability []]
                     [JObj []; JObj [("Detection", JObj [])]; detection (JStr "CIS")]))
               eq_refl).
Defined.

(** High under cvss_v3 and low under cvss_v2 score as high; a record
    without severity scores nothing. *)
Lemma vulnerability_score_of_sample :
  outcome (get_alerts_vuln
             (report [high_v3_low_v2; vulnerability [("severity", JStr "Low")];
                      vulnerability []] []))
  = Ok 520.
Proof.
  exact (proj1 (proj2 (vulnerability_score_is_weighted_sum
                         (report [high_v3_low_v2; vulnerability [("severity", JStr "Low")];
                                  vulnerability []] [])
                         [high_v3_low_v2; vulnerability [("severity", JStr "Low")];
                          vulnerability []]
                         eq_refl))
               eq_refl).
Defined.

(** A detection without type, then malware in capitals: the malware scan
    returns Malware. *)
Lemma detection_signals_of_sample :
  outcome (get_alerts_malware
             (report [] [JObj [("Detection", JObj [])]; detection (JStr "MALWARE")]))
  = Ok (value Malware).
Proof.
  exact (proj1 (proj1 (proj2 (proj2 (proj2
           (detection_signals
              (report [] [JObj [("Detection", JObj [])]; detection (JStr "MALWARE")])
              [JObj [("Detection", JObj [])]; detection (JStr "MALWARE")]
              eq_refl))))
           eq_refl)).
Defined.

(** A retry count of 0 in a world where everything works. *)
Lemma zero_retries_unbound_resp_sample :
  exit_code (main (world token_ok 0 secret_and_malware) (args 0)) = value ScriptFailure.
Proof.
  exact (proj1 (proj2 (proj2
           (zero_retries_unbound_resp
              (world token_ok 0 secret_and_malware) (args 0) image (JStr "token")
              eq_refl eq_refl eq_refl)))).
Defined.

(** The CIS finding shields the detection whose type is null from the
    misconfiguration scan: with it the run ends with Secrets, without it with
    ScriptFailure. *)
Lemma misconfig_detection_changes_exit_code :
  outcome (acquire (world token_ok 0 (report [] shielded)) (args 1))
    = Ok (report [] shielded) /\
  outcome (acquire (world token_ok 0 (report [] exposed)) (args 1))
    = Ok (report [] exposed) /\
  filter not_misconfig shielded = exposed /\
  filter not_misconfig exposed = exposed /\
  exit_code (main (world token_ok 0 (report [] shielded)) (args 1)) = value Secrets /\
  exit_code (main (world token_ok 0 (report [] exposed)) (args 1)) = value ScriptFailure.
Proof. repeat split. Qed.

(** A secret with and without a CIS finding next to it, the second report
    served after three attempts: the same status. *)
Lemma exit_code_ignores_misconfig_sample :
  exit_code (main (world token_ok 0
                     (report [] [detection (JStr "cis"); detection (JStr "secret")]))
               (args 4))
  = exit_code (main (world token_ok 3 (report [] [detection (JStr "secret")])) (args 4)).
Proof.
  exact (proj1 exit_code_ignores_misconfig
           (world token_ok 0
              (report [] [detection (JStr "cis"); detection (JStr "secret")]))
           (world token_ok 3 (report [] [detection (JStr "secret")]))
           (args 4)
           (report [] [detection (JStr "cis"); detection (JStr "secret")])
           (report [] [detection (JStr "secret")])
           [detection (JStr "cis"); detection (JStr "secret")]
           [detection (JStr "secret")]
           0 0
           eq_refl eq_refl eq_refl eq_refl eq_refl eq_refl eq_refl eq_refl eq_refl).
Defined.

(** Two answers that are not 200, then the report, with a budget of five:
    the poller returns the report after three sleeps and three GETs. *)
Lemma get_scanreport_after_two_pending :
  let run := get_scanreport (world token_ok 2 secret_and_malware) image (JStr "token") 5 in
  outcome run = Ok secret_and_malware /\
  io_effects run = attempts 10 (report_url image) "Bearer token" 3.
Proof.
  refine (get_scanreport_first_200
            (world token_ok 2 secret_and_malware) image "token" 5 2 _ _ _).
  - reflexivity.
  - intros [| [| j]] Hj; cbn; try discriminate. lia.
  - reflexivity.
Defined.

(** Two answers that are not 200 and a budget of two: the poller raises the
    report-unavailable error with the last status. *)
Lemma get_scanreport_budget_of_two :
  let run := get_scanreport (world token_ok 2 secret_and_malware) image (JStr "token") 2 in
  outcome run = Raise (APIError ("GET " ++ report_url image ++ " 202")%string) /\
  io_effects run = attempts 10 (report_url image) "Bearer token" 2.
Proof.
  refine (get_scanreport_exhausted
            (world token_ok 2 secret_and_malware) image "token" 2 _ _).
  - lia.
  - intros [| [| j]] Hj; cbn; try discriminate. lia.
Defined.

(** * What the rest of the code shows *)

(** ** Exceptions and effects a computation is confined to *)

Section Obeys.
Variables (ok_exn : exn -> bool) (ok_ev : event -> bool).

Lemma obeys_ret {A} (a : A) : obeys ok_exn ok_ev (ret a).
Proof. split; [discriminate | reflexivity]. Qed.

Lemma obeys_raise {A} (e : exn) : ok_exn e = true -> obeys ok_exn ok_ev (@raise A e).
Proof. intros H. split; [| reflexivity]. intros e' E. cbn in E. now inversion E; subst. Qed.

Lemma obeys_emit (ev : event) : ok_ev ev = true -> obeys ok_exn ok_ev (emit ev).
Proof. intros H. split; [discriminate |]. cbn. now rewrite H. Qed.

Lemma obeys_lift {A} (r : result A) :
  raises_only ok_exn r -> obeys ok_exn ok_ev (lift r).
Proof. intros H. split; [exact H | reflexivity]. Qed.

Lemma obeys_bind {A B} (m : M A) (f : A -> M B) :
  obeys ok_exn ok_ev m -> (forall a, obeys ok_exn ok_ev (f a)) ->
  obeys ok_exn ok_ev (bind m f).
Proof.
  intros [Hm_exn Hm_ev] Hf. unfold obeys. rewrite outcome_bind, effects_bind.
  rewrite forallb_app, Hm_ev.
  destruct (outcome m) as [a | e].
  - destruct (Hf a) as [Hf_exn Hf_ev]. now split.
  - split; [| reflexivity]. intros e' E. inversion E; subst. now apply Hm_exn.
Qed.

Lemma obeys_try_except {A} (body : M A) (clauses : list ((exn -> bool) * M A)) :
  obeys ok_exn ok_ev body ->
  Forall (fun clause => obeys ok_exn ok_ev (snd clause)) clauses ->
  obeys ok_exn ok_ev (try_except body clauses).
Proof.
  intros [Hb_exn Hb_ev] Hclauses.
  destruct body as [[a | e] t]; [now split |].
  unfold try_except.
  assert (Hfor : forall h, handler_for clauses e = Some h -> obeys ok_exn ok_ev h).
  { induction Hclauses as [| [catches handler] rest Hh _ IH]; [discriminate |].
    cbn. destruct (catches e); [| exact IH]. intros h E. now inversion E; subst. }
  destruct (handler_for clauses e) as [[r t'] |] eqn:E; [| now split].
  destruct (Hfor _ eq_refl) as [Hh_exn Hh_ev]. unfold obeys.
  cbn in Hb_ev, Hh_ev, Hh_exn |- *.
  split; [exact Hh_exn |]. now rewrite forallb_app, Hb_ev, Hh_ev.
Qed.

(** *** The scans *)

Hypothesis Hkey : forall key, ok_exn (KeyError key) = true.
Hypothesis Htype : ok_exn TypeError = true.
Hypothesis Hattr : ok_exn AttributeError = true.
Hypothesis Hlog : forall lvl msg args, ok_ev (Log lvl msg args) = true.

Lemma obeys_getitem (x : json) (key : string) : obeys ok_exn ok_ev (getitem x key).
Proof.
  destruct x; try (now apply obeys_raise). cbn.
  destruct (lookup key members); [apply obeys_ret | now apply obeys_raise].
Qed.

Lemma obeys_get (x : json) (key : string) (default : json) :
  obeys ok_exn ok_ev (get x key default).
Proof.
  destruct x; try (now apply obeys_raise). cbn.
  destruct (lookup key members); apply obeys_ret.
Qed.

Lemma obeys_str_lower (x : json) : obeys ok_exn ok_ev (str_lower x).
Proof. destruct x; try (now apply obeys_raise). apply obeys_ret. Qed.

Lemma obeys_iter (x : json) : obeys ok_exn ok_ev (iter x).
Proof. destruct x; try (now apply obeys_raise); apply obeys_ret. Qed.

Lemma obeys_log (lvl : level) (msg : string) (args : list json) :
  obeys ok_exn ok_ev (log lvl msg args).
Proof. apply obeys_emit, Hlog. Qed.

Ltac obey :=
  repeat first
    [ apply obeys_ret
    | apply obeys_log
    | apply obeys_getitem
    | apply obeys_get
    | apply obeys_str_lower
    | apply obeys_iter
    | apply obeys_bind; [| intros ?]
    | match goal with
      | |- obeys _ _ (if ?b then _ else _) => destruct b
      | |- obeys _ _ (match ?x with Some _ => _ | None => _ end) => destruct x
      end
    | assumption ].

Lemma obeys_resolve_severity (details : json) :
  obeys ok_exn ok_ev (resolve_severity details).
Proof. unfold resolve_severity. obey. Qed.

Lemma obeys_vuln_step (vulnerability : json) (vuln_score : Z) :
  obeys ok_exn ok_ev (vuln_step vulnerability vuln_score).
Proof.
  unfold vuln_step. cbv zeta.
  repeat first [ apply obeys_resolve_severity | progress obey ].
Qed.

Lemma obeys_vuln_loop (vulnerabilities : list json) (vuln_score : Z) :
  obeys ok_exn ok_ev (vuln_loop vulnerabilities vuln_score).
Proof.
  revert vuln_score. induction vulnerabilities as [| v rest IH]; intros vuln_score; cbn.
  - apply obeys_ret.
  - apply obeys_bind; [apply obeys_vuln_step | intros a; apply IH].
Qed.

Lemma obeys_get_alerts_vuln (self : ScanReport) :
  obeys ok_exn ok_ev (get_alerts_vuln self).
Proof.
  unfold get_alerts_vuln. repeat first [ apply obeys_vuln_loop | progress obey ].
Qed.

Lemma obeys_detection_step (hit : string -> bool) (alert : event) (code : Z)
    (detection : json) :
  ok_ev alert = true ->
  obeys ok_exn ok_ev (detection_step hit alert code detection).
Proof.
  intros Halert. unfold detection_step. apply obeys_try_except.
  - repeat first [ apply obeys_emit; assumption | progress obey ].
  - repeat constructor. apply obeys_ret.
Qed.

Lemma obeys_detection_loop (hit : string -> bool) (alert : event) (code : Z)
    (detections : list json) (det_code : Z) :
  ok_ev alert = true ->
  obeys ok_exn ok_ev (detection_loop hit alert code detections det_code).
Proof.
  intros Halert. induction detections as [| d rest IH]; cbn.
  - apply obeys_ret.
  - apply obeys_bind; [now apply obeys_detection_step |].
    intros [c |]; [apply obeys_ret | exact IH].
Qed.

Lemma obeys_scan_detections (self : ScanReport) (hit : string -> bool)
    (alert : event) (code : Z) :
  ok_ev alert = true ->
  obeys ok_exn ok_ev (scan_detections self hit alert code).
Proof.
  intros Halert. unfold scan_detections.
  repeat first [ apply obeys_detection_loop; assumption | progress obey ].
Qed.

Lemma obeys_get_alerts_malware (self : ScanReport) :
  obeys ok_exn ok_ev (get_alerts_malware self).
Proof.
  unfold get_alerts_malware.
  apply obeys_bind; [apply obeys_log | intros _; apply obeys_scan_detections, Hlog].
Qed.

Lemma obeys_get_alerts_secrets (self : ScanReport) :
  obeys ok_exn ok_ev (get_alerts_secrets self).
Proof.
  unfold get_alerts_secrets.
  apply obeys_bind; [apply obeys_log | intros _; apply obeys_scan_detections, Hlog].
Qed.

Lemma obeys_get_alerts_misconfig (self : ScanReport) :
  obeys ok_exn ok_ev (get_alerts_misconfig self).
Proof.
  unfold get_alerts_misconfig.
  apply obeys_bind; [apply obeys_log | intros _; apply obeys_scan_detections, Hlog].
Qed.

Lemma obeys_status_code (self : ScanReport) :
  obeys ok_exn ok_ev (ScanReport_status_code self).
Proof.
  unfold ScanReport_status_code.
  apply obeys_bind; [apply obeys_get_alerts_vuln | intros ?].
  apply obeys_bind; [apply obeys_get_alerts_malware | intros ?].
  apply obeys_bind; [apply obeys_get_alerts_secrets | intros ?].
  apply obeys_bind; [apply obeys_get_alerts_misconfig | intros ?].
  apply obeys_ret.
Qed.

Lemma obeys_bind_ok {A B} (m : M A) (f : A -> M B) :
  obeys ok_exn ok_ev m -> (forall a, outcome m = Ok a -> obeys ok_exn ok_ev (f a)) ->
  obeys ok_exn ok_ev (bind m f).
Proof.
  intros [Hm_exn Hm_ev] Hf. unfold obeys. rewrite outcome_bind, effects_bind.
  rewrite forallb_app, Hm_ev.
  destruct (outcome m) as [a | e].
  - destruct (Hf a eq_refl) as [Hf_exn Hf_ev]. now split.
  - split; [| reflexivity]. intros e' E. inversion E; subst. now apply Hm_exn.
Qed.

(** *** The container steps *)

Hypothesis Hapi : forall status, ok_exn (APIError status) = true.
Hypothesis Hcalled : forall returncode cmd, ok_exn (CalledProcessError returncode cmd) = true.
Hypothesis Hplain : forall message, ok_exn (PlainException message) = true.
Hypothesis Hsteps : forall ev, is_container ev = true -> ok_ev ev = true.

Lemma obeys_contains (key : string) (x : json) : obeys ok_exn ok_ev (contains key x).
Proof. destruct x; try (now apply obeys_raise); apply obeys_ret. Qed.

Lemma obeys_str_add (prefix : string) (x : json) : obeys ok_exn ok_ev (str_add prefix x).
Proof. destruct x; try (now apply obeys_raise); apply obeys_ret. Qed.

Lemma obeys_concat_strs (items : list json) : obeys ok_exn ok_ev (concat_strs items).
Proof.
  induction items as [| item rest IH]; [apply obeys_ret |].
  destruct item; cbn [concat_strs]; try (now apply obeys_raise).
  apply obeys_bind; [exact IH | intros tail; apply obeys_ret].
Qed.

Lemma obeys_str_join (x : json) : obeys ok_exn ok_ev (str_join x).
Proof.
  unfold str_join. apply obeys_bind; [apply obeys_iter | intros items].
  apply obeys_concat_strs.
Qed.

Lemma obeys_repo_tags (images : list json) : obeys ok_exn ok_ev (repo_tags images).
Proof.
  induction images as [| attrs rest IH]; [apply obeys_ret |].
  cbn [repo_tags].
  apply obeys_bind; [apply obeys_getitem | intros tags].
  apply obeys_bind; [apply obeys_str_join | intros joined].
  apply obeys_bind; [exact IH | intros tail; apply obeys_ret].
Qed.

Lemma obeys_step (ev : event) : is_container ev = true -> obeys ok_exn ok_ev (emit ev).
Proof. intros H. now apply obeys_emit, Hsteps. Qed.

Lemma obeys_push_line (line : json) : obeys ok_exn ok_ev (push_line line).
Proof.
  unfold push_line.
  apply obeys_bind; [apply obeys_contains | intros [|]].
  - apply obeys_bind; [apply obeys_getitem | intros error].
    apply obeys_bind; [apply obeys_str_add | intros status].
    apply obeys_raise, Hapi.
  - apply obeys_bind; [apply obeys_contains | intros has_status].
    apply obeys_bind.
    + destruct has_status; [| apply obeys_ret].
      apply obeys_bind; [apply obeys_getitem | intros status; apply obeys_ret].
    + intros [|].
      * apply obeys_bind; [apply obeys_get | intros progress].
        apply obeys_bind; [apply obeys_get | intros details].
        now apply obeys_step.
      * apply obeys_bind; [apply obeys_contains | intros [|]].
        -- apply obeys_bind; [apply obeys_getitem | intros status; apply obeys_log].
        -- now apply obeys_step.
Qed.

Lemma obeys_push_loop (image_push : list json) (ending : option exn) :
  (forall e, ending = Some e -> ok_exn e = true) ->
  obeys ok_exn ok_ev (push_loop image_push ending).
Proof.
  intros Hend. induction image_push as [| line rest IH]; cbn [push_loop].
  - destruct ending as [e |]; [apply obeys_raise; now apply Hend | apply obeys_ret].
  - apply obeys_bind; [apply obeys_push_line | intros _; exact IH].
Qed.

Lemma obeys_call {A} (ev : event) (m : method A) :
  is_container ev = true -> method_raises ok_exn m ->
  obeys ok_exn ok_ev (call ev m).
Proof.
  intros Hev Hm. destruct m as [| r]; [now apply obeys_raise |].
  cbn [call]. apply obeys_bind; [now apply obeys_step | intros _].
  apply obeys_lift. intros e ->. now apply Hm.
Qed.

Section Steps.
Variables (c : Client) (self : ScanImage).
Hypothesis Hclient : client_raises ok_exn c.

Lemma obeys_container_tag : obeys ok_exn ok_ev (container_tag c self).
Proof.
  destruct Hclient as (Hlist & Hpull & Hfind & Htag & _).
  unfold container_tag. cbv zeta.
  apply obeys_bind; [now apply obeys_step | intros _].
  apply obeys_bind; [now apply obeys_lift | intros images].
  apply obeys_bind; [apply obeys_repo_tags | intros container_image].
  apply obeys_bind.
  - destruct (String.eqb container_image ""); [| apply obeys_ret].
    apply obeys_bind; [apply obeys_log | intros _].
    apply obeys_bind; [now apply obeys_step | intros _; now apply obeys_lift].
  - intros _. apply obeys_bind; [apply obeys_log | intros _].
    apply obeys_bind; [now apply obeys_step | intros _].
    apply obeys_bind; [now apply obeys_lift | intros _].
    apply obeys_bind; [now apply obeys_step | intros _; now apply obeys_lift].
Qed.

Lemma obeys_subprocess_run_check (command : list string) :
  obeys ok_exn ok_ev (subprocess_run_check c command).
Proof.
  destruct Hclient as (_ & _ & _ & _ & _ & Hpodman & _).
  unfold subprocess_run_check.
  apply obeys_bind; [now apply obeys_step | intros _].
  apply obeys_bind; [now apply obeys_lift | intros [[returncode stdout] stderr]].
  destruct (negb (returncode =? 0)); [apply obeys_raise, Hcalled | apply obeys_ret].
Qed.

Lemma obeys_container_login : obeys ok_exn ok_ev (container_login c self).
Proof.
  destruct Hclient as (_ & _ & _ & _ & Hlogin & _).
  unfold container_login.
  apply obeys_bind; [apply obeys_log | intros _].
  apply obeys_bind; [now apply obeys_step | intros _].
  apply obeys_bind; [now apply obeys_lift | intros login].
  apply obeys_try_except.
  - apply obeys_bind; [apply obeys_getitem | intros status; now apply obeys_step].
  - constructor; [| constructor]. cbn [snd]. cbv zeta.
    apply obeys_bind; [apply obeys_subprocess_run_check |].
    intros [[returncode stdout] stderr].
    destruct (negb (returncode =? 0)); [apply obeys_raise, Hplain | apply obeys_log].
Qed.

Lemma obeys_container_push : obeys ok_exn ok_ev (container_push c self).
Proof.
  destruct Hclient as (_ & _ & _ & _ & _ & _ & Hi & His & Hc & Hcs).
  unfold container_push. cbv zeta.
  apply obeys_bind; [apply obeys_log | intros _].
  apply obeys_bind_ok.
  - apply obeys_try_except; [now apply obeys_call |].
    constructor; [| constructor]. now apply obeys_call.
  - intros s Hs. apply obeys_push_loop. intros e He.
    destruct (images_push c) as [| [si | ei]] eqn:Ei;
      destruct (client_push c) as [| [sc | ec]] eqn:Ec;
      cbn in Hs; try discriminate;
      try (destruct ei; cbn in Hs; try discriminate);
      inversion Hs; subst;
      first [ now apply (His s e) | now apply (Hcs s e) ].
Qed.
End Steps.

(** *** The run *)

Variable w : World.
Hypothesis Hworld : world_raises ok_exn w.
Hypothesis Hunbound : forall name, ok_exn (UnboundLocalError name) = true.
Hypothesis Hexit : forall code, ok_exn (SystemExit code) = true.
Hypothesis Hsleep : forall seconds, ok_ev (Sleep seconds) = true.
Hypothesis Hpost : forall url data headers, ok_ev (HttpPost url data headers) = true.
Hypothesis Hget : forall url authorization, ok_ev (HttpGet url authorization) = true.

Lemma obeys_prepare (args : Args) : obeys ok_exn ok_ev (prepare w args).
Proof.
  destruct Hworld as (Hrun & Hreg & _).
  unfold prepare, ScanImage_init, map_getitem.
  apply obeys_bind; [now apply obeys_lift | intros secret].
  apply obeys_bind.
  - apply obeys_bind.
    + destruct (assoc (cloud args) registry_url_map);
        [apply obeys_ret | apply obeys_raise, Hkey].
    + intros domain. apply obeys_bind; [| intros base; apply obeys_ret].
      destruct (assoc (cloud args) auth_url_map);
        [apply obeys_ret | apply obeys_raise, Hkey].
  - intros img.
    apply obeys_bind; [now apply obeys_container_tag | intros _].
    apply obeys_bind; [now apply obeys_container_login | intros _].
    apply obeys_bind; [now apply obeys_container_push | intros _; apply obeys_ret].
Qed.

Lemma obeys_get_api_token (self : ScanImage) :
  obeys ok_exn ok_ev (get_api_token w self).
Proof.
  destruct Hworld as (_ & _ & Htok & _).
  rewrite get_api_token_unfold. split.
  - cbn [outcome fst]. destruct (accepted _).
    + destruct (decoded (token_endpoint w)) as [body | e] eqn:E.
      * apply (obeys_getitem body "access_token").
      * intros e' E'. inversion E'; subst. now apply Htok.
    + intros e E. inversion E. apply Hapi.
  - cbn. now rewrite Hlog, Hpost.
Qed.

Lemma obeys_poll_loop (get_url : string) (token : json) (sleep_seconds : Z)
    (counts : list nat) (resp : option (Response ScanReport)) :
  obeys ok_exn ok_ev (poll_loop w get_url token sleep_seconds counts resp).
Proof.
  destruct Hworld as (_ & _ & _ & Hrep & _).
  revert resp. induction counts as [| count rest IH]; intros resp.
  - cbn [poll_loop]. apply obeys_bind; [apply obeys_log | intros _].
    destruct resp; apply obeys_raise; [apply Hapi | apply Hunbound].
  - cbn [poll_loop]. unfold time_sleep, requests_get.
    apply obeys_bind; [apply obeys_emit, Hsleep | intros _].
    apply obeys_bind; [apply obeys_log | intros _].
    destruct token; cbn [BearerAuth_call];
      try (rewrite bind_raise; now apply obeys_raise).
    rewrite bind_ret_l, bind_assoc.
    apply obeys_bind; [apply obeys_emit, Hget | intros _].
    rewrite bind_ret_l.
    destruct (negb (status_code (report_endpoint w count) =? 200)).
    + apply obeys_bind; [apply obeys_log | intros _; apply IH].
    + apply obeys_lift, Hrep.
Qed.

Lemma obeys_get_scanreport (self : ScanImage) (token : json) (retry_count : Z) :
  obeys ok_exn ok_ev (get_scanreport w self token retry_count).
Proof.
  unfold get_scanreport. cbv zeta.
  apply obeys_bind; [apply obeys_log | intros _; apply obeys_poll_loop].
Qed.

(** Everything up to the report, the export apart. *)
Lemma obeys_acquire (args : Args) :
  (match json_report args with
   | Some filename => filename = "" \/ forall document, ok_ev (FileWrite filename document) = true
   | None => True
   end) ->
  obeys ok_exn ok_ev (acquire w args).
Proof.
  intros Hfile. unfold acquire.
  apply obeys_bind; [apply obeys_prepare | intros scan_image].
  apply obeys_bind; [apply obeys_get_api_token | intros token].
  apply obeys_bind; [apply obeys_get_scanreport | intros scan_report].
  apply obeys_bind; [| intros _; apply obeys_ret].
  destruct (json_report args) as [filename |]; [| apply obeys_ret].
  destruct (String.eqb_spec filename "") as [-> | Hne]; cbn [negb]; [apply obeys_ret |].
  destruct Hfile as [Hempty | Hwrite]; [contradiction |].
  unfold export. destruct Hworld as (_ & _ & _ & _ & Hopen & _).
  apply obeys_bind; [apply obeys_lift, Hopen | intros _; apply obeys_emit, Hwrite].
Qed.

Lemma obeys_decide (args : Args) (f_vuln_score f_secrets f_malware : Z) :
  obeys ok_exn ok_ev (decide w args f_vuln_score f_secrets f_malware).
Proof.
  destruct Hworld as (_ & _ & _ & _ & _ & Hint).
  unfold decide, sys_exit.
  repeat first
    [ apply obeys_raise, Hexit
    | apply obeys_lift, Hint
    | progress obey ].
Qed.

Lemma obeys_assess (args : Args) (scan_report : ScanReport) :
  obeys ok_exn ok_ev (assess w args scan_report).
Proof.
  unfold assess.
  apply obeys_bind; [apply obeys_get_alerts_vuln | intros ?].
  apply obeys_bind; [apply obeys_get_alerts_secrets | intros ?].
  apply obeys_bind; [apply obeys_get_alerts_malware | intros ?].
  apply obeys_bind; [apply obeys_get_alerts_misconfig | intros ?].
  apply obeys_decide.
Qed.

Lemma obeys_main (args : Args) :
  (match json_report args with
   | Some filename => filename = "" \/ forall document, ok_ev (FileWrite filename document) = true
   | None => True
   end) ->
  obeys ok_exn ok_ev (main w args).
Proof.
  intros Hfile. unfold main, guarded, sys_exit. apply obeys_try_except.
  - apply obeys_bind; [now apply obeys_acquire | intros r; apply obeys_assess].
  - repeat constructor; cbn [snd];
      (apply obeys_bind; [apply obeys_log | intros _; apply obeys_raise, Hexit]).
Qed.
End Obeys.

(** ** The steps before authentication *)

Lemma client_raises_anything (c : Client) : client_raises (fun _ => true) c.
Proof. repeat split; intros; reflexivity. Qed.

Lemma world_raises_anything (w : World) : world_raises (fun _ => true) w.
Proof.
  split; [intros ? ?; reflexivity |]. split; [apply client_raises_anything |].
  repeat split; intros; reflexivity.
Qed.

Lemma container_is_not_io (ev : event) : is_container ev = true -> negb (is_io ev) = true.
Proof. now destruct ev. Qed.

Lemma filter_none {A} (p : A -> bool) (l : list A) :
  forallb (fun x => negb (p x)) l = true -> filter p l = [].
Proof.
  induction l as [| x l IH]; [reflexivity |]. cbn.
  destruct (p x); [discriminate | exact IH].
Qed.

(** The runtime client, the image and the three container steps neither
    sleep nor talk to the two HTTP endpoints. *)
Lemma prepare_no_io (w : World) (args : Args) : io_effects (prepare w args) = [].
Proof.
  apply filter_none.
  apply (obeys_prepare (fun _ => true) (fun ev => negb (is_io ev)));
    try reflexivity.
  - exact container_is_not_io.
  - apply world_raises_anything.
Qed.

(** A run whose preparation returned and whose authentication or polling
    raised: the exception is logged by the clause that takes it and the run
    leaves with ScriptFailure. *)
Lemma main_stops_before_report (w : World) (args : Args) (self : ScanImage)
    (e : exn) (t : list event) :
  outcome (prepare w args) = Ok self ->
  (token <- get_api_token w self ;;
   get_scanreport w self token (retry_count args)) = (Raise e, t) ->
  is_Exception e = true ->
  main w args =
  (Raise (SystemExit (value ScriptFailure)),
   effects (prepare w args) ++ t
   ++ [Log ERROR (if is_APIError e then "Unable to scan" else "Unknown error") []]).
Proof.
  intros Hprep Hrest He.
  assert (Hacq : acquire w args = (Raise e, effects (prepare w args) ++ t)).
  { unfold acquire. rewrite (prepare_returns _ _ _ Hprep), bind_ok.
    destruct (get_api_token w self) as [[token | e1] t1]; cbn [bind] in Hrest |- *.
    - destruct (get_scanreport w self token (retry_count args)) as [[r | e2] t2];
        [discriminate |]. inversion Hrest; subst. reflexivity.
    - inversion Hrest; subst. reflexivity. }
  unfold main. rewrite Hacq. cbn [bind]. unfold guarded, try_except.
  cbn [handler_for]. destruct (is_APIError e).
  - cbn. now rewrite <- app_assoc.
  - rewrite He. cbn. now rewrite <- app_assoc.
Qed.

(** C7.  [get_api_token] returns the [access_token] of the answer's body
    exactly when the token endpoint answers 200 or 201.  On any other status
    it raises the API error that carries the method, the URL and the status,
    after the one POST it makes; a run that got as far as authenticating then
    ends with ScriptFailure (10): after the effects of its container steps it
    makes that POST and logs the error, and the POST is its only request: no
    sleep and no GET on the report endpoint. *)
Theorem authenticate_contract (w : World) (self : ScanImage) :
  let resp := token_endpoint w in
  (forall members token,
     decoded resp = Ok (JObj members) -> lookup "access_token" members = Some token ->
     (outcome (get_api_token w self) = Ok token
      <-> status_code resp = 200 \/ status_code resp = 201)) /\
  (status_code resp <> 200 -> status_code resp <> 201 ->
     get_api_token w self =
       (Raise (APIError ("POST " ++ auth_url self ++ " "
                         ++ str_of_int (status_code resp))%string),
        token_request self) /\
     forall args, outcome (prepare w args) = Ok self ->
       exit_code (main w args) = value ScriptFailure /\
       effects (main w args) =
         effects (prepare w args) ++ token_request self
         ++ [Log ERROR "Unable to scan" []] /\
       io_effects (main w args) =
         [HttpPost (auth_url self)
            [("client_id", self_client_id self);
             ("client_secret", self_client_secret self)]
            [("Content-Type", "application/x-www-form-urlencoded")]]).
Proof.
  cbv zeta. split.
  - intros members token Hbody Htok. rewrite get_api_token_unfold. cbn [outcome fst].
    rewrite Hbody. cbn [getitem]. rewrite Htok. unfold accepted.
    destruct (Z.eqb_spec (status_code (token_endpoint w)) 200) as [E200 | N200];
      destruct (Z.eqb_spec (status_code (token_endpoint w)) 201) as [E201 | N201];
      cbn; split; auto; try discriminate.
    intros [H | H]; contradiction.
  - intros N200 N201.
    assert (Htoken : get_api_token w self =
              (Raise (APIError ("POST " ++ auth_url self ++ " "
                                ++ str_of_int (status_code (token_endpoint w)))%string),
               token_request self)).
    { rewrite get_api_token_unfold. unfold accepted.
      destruct (Z.eqb_spec (status_code (token_endpoint w)) 200); [contradiction |].
      destruct (Z.eqb_spec (status_code (token_endpoint w)) 201); [contradiction |].
      reflexivity. }
    split; [exact Htoken |].
    intros args Hprep.
    assert (Hmain := main_stops_before_report w args self
              (APIError ("POST " ++ auth_url self ++ " "
                         ++ str_of_int (status_code (token_endpoint w)))%string)
              (token_request self) Hprep).
    rewrite Htoken in Hmain. specialize (Hmain eq_refl eq_refl).
    cbn [is_APIError] in Hmain.
    split; [| split].
    + unfold exit_code. now rewrite Hmain.
    + now rewrite Hmain.
    + unfold io_effects. rewrite Hmain. cbn [effects snd].
      rewrite filter_app. fold (io_effects (prepare w args)).
      now rewrite prepare_no_io.
Qed.

(** ** The poller, whatever the endpoint answers *)

Lemma poll_loop_bounded (w : World) (get_url tok : string) (sleep_seconds : Z)
    (n first : nat) (resp : option (Response ScanReport)) :
  exists k, (k <= n)%nat /\
    io_effects (poll_loop w get_url (JStr tok) sleep_seconds (seq first n) resp)
    = attempts sleep_seconds get_url ("Bearer " ++ tok)%string k.
Proof.
  revert first resp. induction n as [| n IH]; intros first resp.
  - exists 0%nat. split; [lia |]. cbn [seq]. now rewrite poll_loop_nil.
  - cbn [seq].
    destruct (Z.eq_dec (status_code (report_endpoint w first)) 200) as [Hok | Hnot].
    + exists 1%nat. split; [lia |]. now rewrite poll_loop_ready.
    + destruct (IH (S first) (Some (report_endpoint w first))) as (k & Hk & Hio).
      exists (S k). split; [lia |].
      rewrite poll_loop_not_ready by exact Hnot.
      unfold io_effects in *. cbn [effects snd filter is_io attempts]. now rewrite Hio.
Qed.

(** The poller makes at most [retry_count] GETs, each right after a sleep of
    ten seconds, and nothing else of it reaches outside the process:
    whatever the report endpoint answers. *)
Theorem poller_attempts_bounded (w : World) (self : ScanImage) (tok : string)
    (retry_count : Z) :
  exists k, (k <= Z.to_nat retry_count)%nat /\
    io_effects (get_scanreport w self (JStr tok) retry_count)
    = attempts 10 (report_url self) ("Bearer " ++ tok)%string k.
Proof.
  rewrite get_scanreport_unfold. cbv zeta. unfold range.
  destruct (poll_loop_bounded w (report_url self) tok 10 (Z.to_nat retry_count) 0 None)
    as (k & Hk & Hio).
  exists k. split; [exact Hk | exact Hio].
Qed.

(** A token that is not a string stops the poller at its first attempt:
    it has slept once and raises [TypeError] while the request is prepared,
    so no GET is made.  A run whose token endpoint served such a token ends
    with ScriptFailure, its POST and that one sleep being all that reached
    outside. *)
Theorem poller_rejects_token_that_is_not_a_string (w : World) (self : ScanImage)
    (token : json) (retries : Z) :
  is_str token = false ->
  1 <= retries ->
  get_scanreport w self token retries =
    (Raise TypeError,
     [Log INFO "Downloading Image Scan Report" []; Sleep 10;
      Log DEBUG "retry count %s" [JInt 0]]) /\
  forall args,
    retry_count args = retries ->
    outcome (prepare w args) = Ok self ->
    outcome (get_api_token w self) = Ok token ->
    exit_code (main w args) = value ScriptFailure /\
    io_effects (main w args) =
      [HttpPost (auth_url self)
         [("client_id", self_client_id self); ("client_secret", self_client_secret self)]
         [("Content-Type", "application/x-www-form-urlencoded")];
       Sleep 10].
Proof.
  intros Htoken Hretries.
  assert (Hpoll : get_scanreport w self token retries =
            (Raise TypeError,
             [Log INFO "Downloading Image Scan Report" []; Sleep 10;
              Log DEBUG "retry count %s" [JInt 0]])).
  { rewrite get_scanreport_unfold. cbv zeta. unfold range.
    destruct (Z.to_nat retries) as [| n] eqn:E; [lia |].
    destruct token; try discriminate; reflexivity. }
  split; [exact Hpoll |].
  intros args <- Hprep Htok.
  assert (Hmain := main_stops_before_report w args self TypeError
            (token_request self
             ++ [Log INFO "Downloading Image Scan Report" []; Sleep 10;
                 Log DEBUG "retry count %s" [JInt 0]]) Hprep).
  rewrite (pair_outcome_effects (get_api_token w self)), Htok, get_api_token_effects,
    bind_ok, Hpoll in Hmain.
  specialize (Hmain eq_refl eq_refl). cbn [is_APIError] in Hmain.
  split.
  - unfold exit_code. now rewrite Hmain.
  - unfold io_effects. rewrite Hmain. cbn [effects snd].
    rewrite filter_app. fold (io_effects (prepare w args)).
    now rewrite prepare_no_io.
Qed.

(** ** Authentication without a token *)

(** A token endpoint that answers 200 or 201 with a mapping that has no
    [access_token] makes [get_api_token] raise [KeyError]; the run then ends
    with ScriptFailure through the clause for [Exception]: after the effects
    of its container steps it makes its one POST and logs the error, without
    polling. *)
Theorem token_answer_without_access_token (w : World) (self : ScanImage)
    (members : list (string * json)) :
  accepted (status_code (token_endpoint w)) = true ->
  decoded (token_endpoint w) = Ok (JObj members) ->
  lookup "access_token" members = None ->
  get_api_token w self = (Raise (KeyError "access_token"), token_request self) /\
  forall args,
    outcome (prepare w args) = Ok self ->
    exit_code (main w args) = value ScriptFailure /\
    effects (main w args) =
      effects (prepare w args) ++ token_request self ++ [Log ERROR "Unknown error" []] /\
    io_effects (main w args) =
      [HttpPost (auth_url self)
         [("client_id", self_client_id self); ("client_secret", self_client_secret self)]
         [("Content-Type", "application/x-www-form-urlencoded")]].
Proof.
  intros Hacc Hbody Hkey.
  assert (Htoken : get_api_token w self
                   = (Raise (KeyError "access_token"), token_request self)).
  { rewrite get_api_token_unfold, Hacc, Hbody. cbn [outcome getitem]. now rewrite Hkey. }
  split; [exact Htoken |].
  intros args Hprep.
  assert (Hmain := main_stops_before_report w args self (KeyError "access_token")
            (token_request self) Hprep).
  rewrite Htoken in Hmain. specialize (Hmain eq_refl eq_refl).
  cbn [is_APIError] in Hmain.
  split; [| split].
  - unfold exit_code. now rewrite Hmain.
  - now rewrite Hmain.
  - unfold io_effects. rewrite Hmain. cbn [effects snd].
    rewrite filter_app. fold (io_effects (prepare w args)).
    now rewrite prepare_no_io.
Qed.

(** ** The cloud region *)

Lemma assoc_unknown_region (cloud : string) :
  ~ In cloud regions ->
  assoc cloud registry_url_map = None /\ assoc cloud auth_url_map = None.
Proof.
  unfold regions. cbn [In]. intros H. cbn [assoc registry_url_map auth_url_map].
  destruct (String.eqb_spec "us-1" cloud); [tauto |].
  destruct (String.eqb_spec "us-2" cloud); [tauto |].
  destruct (String.eqb_spec "eu-1" cloud); [tauto |].
  destruct (String.eqb_spec "us-gov-1" cloud); [tauto |].
  now split.
Qed.

(** A [ScanImage] is built exactly for the four regions of the two tables,
    with the registry domain and the token URL of the region; any other
    region raises [KeyError] on the registry table, and the run ends with
    ScriptFailure before anything reaches outside the process. *)
Theorem scan_image_needs_a_known_region :
  (forall client_id client_secret repo tag cloud,
     In cloud regions ->
     exists domain base,
       assoc cloud registry_url_map = Some domain /\
       assoc cloud auth_url_map = Some base /\
       ScanImage_init client_id client_secret repo tag cloud =
       ret {| self_client_id := client_id; self_client_secret := client_secret;
              self_repo := repo; self_tag := tag;
              server_domain := domain;
              auth_url := (base ++ "/oauth2/token")%string |}) /\
  (forall client_id client_secret repo tag cloud,
     ~ In cloud regions ->
     ScanImage_init client_id client_secret repo tag cloud = raise (KeyError cloud)) /\
  (forall w args client_secret,
     ~ In (cloud args) regions ->
     runtime w = Ok client_secret ->
     main w args = (Raise (SystemExit (value ScriptFailure)),
                    [Log ERROR "Unknown error" []])).
Proof.
  split; [| split].
  - intros client_id client_secret repo tag cloud Hin.
    unfold regions in Hin. cbn [In] in Hin.
    destruct Hin as [<- | [<- | [<- | [<- | []]]]];
      eexists _, _; repeat split; reflexivity.
  - intros client_id client_secret repo tag cloud Hout.
    destruct (assoc_unknown_region cloud Hout) as [Hreg _].
    unfold ScanImage_init, map_getitem. now rewrite Hreg.
  - intros w args client_secret Hout Hrun.
    destruct (assoc_unknown_region _ Hout) as [Hreg _].
    unfold main, acquire, prepare, ScanImage_init, map_getitem.
    rewrite Hrun, Hreg. reflexivity.
Qed.

(** ** What the scans are confined to *)

Lemma scans_raise_lookup_errors (self : ScanReport) :
  obeys is_lookup_error is_log (get_alerts_vuln self) /\
  obeys is_lookup_error is_log (get_alerts_malware self) /\
  obeys is_lookup_error is_log (get_alerts_secrets self) /\
  obeys is_lookup_error is_log (get_alerts_misconfig self).
Proof.
  split; [| split; [| split]];
    first [ apply obeys_get_alerts_vuln | apply obeys_get_alerts_malware
          | apply obeys_get_alerts_secrets | apply obeys_get_alerts_misconfig ];
    reflexivity.
Qed.

(** The four scans and [status_code] reach nothing outside the process:
    each of their effects is a log record, and the only exceptions they raise
    are [KeyError], [TypeError] and [AttributeError]. *)
Theorem evaluation_only_logs (self : ScanReport) :
  obeys is_lookup_error is_log (get_alerts_vuln self) /\
  obeys is_lookup_error is_log (get_alerts_malware self) /\
  obeys is_lookup_error is_log (get_alerts_secrets self) /\
  obeys is_lookup_error is_log (get_alerts_misconfig self) /\
  obeys is_lookup_error is_log (ScanReport_status_code self).
Proof.
  split; [| split; [| split; [| split]]];
    first [ apply obeys_get_alerts_vuln | apply obeys_get_alerts_malware
          | apply obeys_get_alerts_secrets | apply obeys_get_alerts_misconfig
          | apply obeys_status_code ];
    reflexivity.
Qed.

Lemma lookup_error_is_exception (e : exn) :
  is_lookup_error e = true -> is_Exception e = true.
Proof. now destruct e. Qed.

Lemma scan_raises_exception {A} (scan : M A) (e : exn) :
  obeys is_lookup_error is_log scan -> outcome scan = Raise e -> is_Exception e = true.
Proof. intros [H _] E. apply lookup_error_is_exception. now apply H. Qed.

(** ** The status of the run *)

(** An assessment never returns: it leaves with one of the four verdicts or
    with an exception. *)
Lemma assess_leaves (w : World) (args : Args) (scan_report : ScanReport) :
  (forall s, raises_only is_Exception (int_of_str w s)) ->
  exists e, outcome (assess w args scan_report) = Raise e /\
    (is_Exception e = true \/ exists code, e = SystemExit code /\ In code [0; 1; 2; 3]).
Proof.
  intros Hint. rewrite outcome_assess.
  destruct (scans_raise_lookup_errors scan_report) as (Hv & Hm & Hs & Hc).
  destruct (outcome (get_alerts_vuln scan_report)) as [v | e] eqn:Ev.
  2:{ exists e. split; [reflexivity |]. left. now apply (scan_raises_exception _ _ Hv). }
  destruct (outcome (get_alerts_secrets scan_report)) as [s | e] eqn:Es.
  2:{ exists e. split; [reflexivity |]. left. now apply (scan_raises_exception _ _ Hs). }
  destruct (outcome (get_alerts_malware scan_report)) as [m | e] eqn:Em.
  2:{ exists e. split; [reflexivity |]. left. now apply (scan_raises_exception _ _ Hm). }
  destruct (outcome (get_alerts_misconfig scan_report)) as [c | e] eqn:Ec.
  2:{ exists e. split; [reflexivity |]. left. now apply (scan_raises_exception _ _ Hc). }
  rewrite outcome_decide.
  destruct (s =? value Secrets).
  { eexists. split; [reflexivity |]. right. eexists. split; [reflexivity |]. cbn. tauto. }
  destruct (m =? value Malware).
  { eexists. split; [reflexivity |]. right. eexists. split; [reflexivity |]. cbn. tauto. }
  destruct (int_of_str w (score args)) as [threshold | e] eqn:Et.
  - destruct (v >=? threshold);
      eexists; (split; [reflexivity |]); right; eexists; (split; [reflexivity |]);
      cbn; tauto.
  - exists e. split; [reflexivity |]. left. now apply (Hint (score args)).
Qed.

Lemma guarded_exception (body : M unit) (e : exn) :
  outcome body = Raise e -> is_Exception e = true ->
  outcome (guarded body) = Raise (SystemExit (value ScriptFailure)).
Proof.
  destruct body as [r t]. cbn [outcome fst]. intros -> He.
  unfold guarded, try_except. cbn [handler_for]. destruct (is_APIError e); [reflexivity |].
  now rewrite He.
Qed.

Lemma guarded_exit (body : M unit) (code : Z) :
  outcome body = Raise (SystemExit code) ->
  outcome (guarded body) = Raise (SystemExit code).
Proof. destruct body as [r t]. cbn [outcome fst]. now intros ->. Qed.

(** In a world whose collaborators do not end the process themselves, [main]
    never returns and never lets an exception through: it leaves with
    [SystemExit], and the code is 0, 1, 2, 3 or 10. *)
Theorem main_always_exits_with_a_status (w : World) (args : Args) :
  ordinary w ->
  exists code,
    outcome (main w args) = Raise (SystemExit code) /\ In code [0; 1; 2; 3; 10].
Proof.
  intros Hw. unfold main.
  assert (Hacq : obeys is_Exception (fun _ => true) (acquire w args)).
  { apply obeys_acquire; try reflexivity; try exact Hw.
    destruct (json_report args); [now right | exact I]. }
  destruct Hacq as [Hacq _].
  destruct (outcome (acquire w args)) as [scan_report | e] eqn:Ea.
  - destruct (assess_leaves w args scan_report) as (e & He & [Hexc | (code & -> & Hcode)]).
    { apply Hw. }
    + exists 10. split; [| cbn; tauto].
      apply (guarded_exception _ e); [| exact Hexc]. now rewrite outcome_bind, Ea.
    + exists code. split.
      * apply guarded_exit. now rewrite outcome_bind, Ea.
      * cbn in Hcode |- *. tauto.
  - exists 10. split; [| cbn; tauto].
    apply (guarded_exception _ e); [| now apply Hacq]. now rewrite outcome_bind, Ea.
Qed.

(** A scan that raises makes the run end with ScriptFailure, whatever the
    report holds otherwise: a secret in a report with a vulnerability record
    the scan cannot read gives 10, not 3. *)
Theorem failing_scan_is_script_failure (w : World) (args : Args)
    (scan_report : ScanReport) (e : exn) :
  outcome (acquire w args) = Ok scan_report ->
  outcome (get_alerts_vuln scan_report) = Raise e \/
  outcome (get_alerts_secrets scan_report) = Raise e \/
  outcome (get_alerts_malware scan_report) = Raise e \/
  outcome (get_alerts_misconfig scan_report) = Raise e ->
  exit_code (main w args) = value ScriptFailure.
Proof.
  intros Hacq Hraise.
  rewrite (exit_code_main_assess _ _ _ Hacq), exit_code_guarded, outcome_assess.
  destruct (scans_raise_lookup_errors scan_report) as (Hv & Hm & Hs & Hc).
  assert (Hfail : forall e', is_Exception e' = true ->
            match e' with SystemExit code => code | _ => value ScriptFailure end
            = value ScriptFailure) by (intros e' He'; now destruct e').
  destruct (outcome (get_alerts_vuln scan_report)) as [v | ev] eqn:Ev.
  2:{ apply Hfail. now apply (scan_raises_exception _ _ Hv). }
  destruct (outcome (get_alerts_secrets scan_report)) as [s | es] eqn:Es.
  2:{ apply Hfail. now apply (scan_raises_exception _ _ Hs). }
  destruct (outcome (get_alerts_malware scan_report)) as [m | em] eqn:Em.
  2:{ apply Hfail. now apply (scan_raises_exception _ _ Hm). }
  destruct (outcome (get_alerts_misconfig scan_report)) as [c | ec] eqn:Ec.
  2:{ apply Hfail. now apply (scan_raises_exception _ _ Hc). }
  destruct Hraise as [H | [H | [H | H]]]; discriminate.
Qed.

(** The threshold is read only when neither a secret nor malware was found:
    with a threshold that does not read as an integer, a run whose scans
    return still ends with Secrets or Malware when one is present, and with
    ScriptFailure otherwise. *)
Theorem unreadable_threshold (w : World) (args : Args) (scan_report : ScanReport)
    (e : exn) (f_vuln_score f_secrets f_malware f_misconfig : Z) :
  outcome (acquire w args) = Ok scan_report ->
  outcome (get_alerts_vuln scan_report) = Ok f_vuln_score ->
  outcome (get_alerts_secrets scan_report) = Ok f_secrets ->
  outcome (get_alerts_malware scan_report) = Ok f_malware ->
  outcome (get_alerts_misconfig scan_report) = Ok f_misconfig ->
  int_of_str w (score args) = Raise e ->
  is_Exception e = true ->
  exit_code (main w args) =
  if any_of_type [type_secret] (detections_of scan_report) then value Secrets
  else if any_of_type [type_malware] (detections_of scan_report) then value Malware
  else value ScriptFailure.
Proof.
  intros Hacq Hv Hs Hm Hc Ht He.
  rewrite (exit_code_main_assess _ _ _ Hacq), exit_code_guarded, outcome_assess.
  rewrite Hv, Hs, Hm, Hc, outcome_decide, Ht.
  apply get_alerts_secrets_returns in Hs. apply get_alerts_malware_returns in Hm.
  subst f_secrets f_malware.
  destruct (any_of_type [type_secret] (detections_of scan_report)); [reflexivity |].
  destruct (any_of_type [type_malware] (detections_of scan_report)); [reflexivity |].
  cbn. now destruct e.
Qed.

(** ** The report file *)

(** With a report file configured, the report is written once the poller
    has returned it and before any scan, as it was received: after the
    effects of the container steps, of authentication and of polling,
    [acquire] ends with the write.  When the file cannot be opened, nothing
    is written and the run ends with ScriptFailure without assessing the
    report. *)
Theorem report_file_is_written_before_assessment (w : World) (args : Args)
    (self : ScanImage) (token : json) (scan_report : ScanReport) (filename : string) :
  outcome (prepare w args) = Ok self ->
  outcome (get_api_token w self) = Ok token ->
  outcome (get_scanreport w self token (retry_count args)) = Ok scan_report ->
  json_report args = Some filename ->
  filename <> "" ->
  let polled := effects (prepare w args) ++ token_request self
                ++ effects (get_scanreport w self token (retry_count args)) in
  (open_w w filename = Ok tt ->
     acquire w args = (Ok scan_report, polled ++ [FileWrite filename (JObj scan_report)])) /\
  (forall e, open_w w filename = Raise e -> is_Exception e = true ->
     acquire w args = (Raise e, polled) /\
     exit_code (main w args) = value ScriptFailure /\
     effects (main w args) =
       polled ++ [Log ERROR (if is_APIError e then "Unable to scan" else "Unknown error") []]).
Proof.
  intros Hprep Htok Hpoll Hfile Hne. cbv zeta.
  remember (get_scanreport w self token (retry_count args)) as poll eqn:Epoll.
  destruct poll as [rp tp]. cbn [outcome effects fst snd] in Hpoll |- *. subst rp.
  assert (Hacq : forall r : result unit, open_w w filename = r ->
            acquire w args =
            (match r with Ok _ => Ok scan_report | Raise e => Raise e end,
             (effects (prepare w args) ++ token_request self ++ tp)
             ++ match r with
                | Ok _ => [FileWrite filename (JObj scan_report)]
                | Raise _ => []
                end)).
  { intros r Hr. unfold acquire.
    rewrite (prepare_returns _ _ _ Hprep), bind_ok.
    rewrite (pair_outcome_effects (get_api_token w self)), Htok, get_api_token_effects.
    cbn [bind]. rewrite <- Epoll, Hfile.
    destruct (String.eqb_spec filename "") as [E | _]; [contradiction |].
    cbn [negb]. unfold export, lift. rewrite Hr.
    destruct r as [[] | e]; cbn [bind emit ret app outcome effects fst snd];
      now rewrite <- ?app_assoc, ?app_nil_r. }
  split.
  - intros Hopen. exact (Hacq _ Hopen).
  - intros e Hopen He. pose proof (Hacq _ Hopen) as Ha. rewrite app_nil_r in Ha.
    split; [exact Ha |]. unfold main. rewrite Ha. cbn [bind].
    split.
    + rewrite exit_code_guarded. cbn [outcome fst]. now destruct e.
    + unfold guarded, try_except. cbn [handler_for].
      destruct (is_APIError e); [reflexivity |]. now rewrite He.
Qed.

(** The only file a run writes is the configured report file: whatever the
    world, a write in the effects of [main] is to the file name given for the
    report, which is not empty.  Without one, or with an empty one, the run
    writes no file. *)
Theorem run_writes_only_the_report_file (w : World) (args : Args)
    (filename : string) (document : json) :
  In (FileWrite filename document) (effects (main w args)) ->
  json_report args = Some filename /\ filename <> "".
Proof.
  set (ok_ev := fun ev =>
         match ev with
         | FileWrite f _ =>
             match json_report args with
             | Some f' => String.eqb f' f && negb (String.eqb f "")
             | None => false
             end
         | _ => true
         end).
  assert (Hmain : obeys (fun _ => true) ok_ev (main w args)).
  { apply obeys_main; try reflexivity.
    - intros ev Hev. now destruct ev.
    - apply world_raises_anything.
    - destruct (json_report args) as [f |] eqn:E; [| exact I].
      destruct (String.eqb_spec f "") as [-> | Hne]; [now left | right].
      intros doc. unfold ok_ev. rewrite ?E, String.eqb_refl.
      destruct (String.eqb_spec f ""); [contradiction | reflexivity]. }
  destruct Hmain as [_ Hev]. intros Hin.
  rewrite forallb_forall in Hev. specialize (Hev _ Hin). unfold ok_ev in Hev.
  destruct (json_report args) as [f' |]; [| discriminate].
  apply andb_prop in Hev as [Hsame Hne].
  apply String.eqb_eq in Hsame. subst f'. split; [reflexivity |].
  intros ->. discriminate.
Qed.

(** ** The score *)

Lemma weight_values (severity : string) :
  weight severity = 0 \/ weight severity = 20 \/ weight severity = 100 \/
  weight severity = 500 \/ weight severity = 2000.
Proof.
  unfold weight. cbv zeta.
  destruct (String.eqb (lower severity) "critical"); [tauto |].
  destruct (String.eqb (lower severity) "high"); [tauto |].
  destruct (String.eqb (lower severity) "medium"); [tauto |].
  destruct (String.eqb (lower severity) "low"); tauto.
Qed.

Lemma record_weight_bounds (vulnerability : json) :
  0 <= record_weight vulnerability <= 2000 /\ (20 | record_weight vulnerability).
Proof.
  unfold record_weight.
  destruct (severity_by_priority (details_of vulnerability));
    try (split; [lia | now exists 0]).
  destruct (weight_values s) as [-> | [-> | [-> | [-> | ->]]]];
    (split; [lia |]);
    [now exists 0 | now exists 1 | now exists 5 | now exists 25 | now exists 100].
Qed.

Lemma total_weight_bounds (vulnerabilities : list json) :
  0 <= total_weight vulnerabilities <= 2000 * Z.of_nat (length vulnerabilities)
  /\ (20 | total_weight vulnerabilities).
Proof.
  induction vulnerabilities as [| v rest [IHb IHd]].
  - cbn. split; [lia | now exists 0].
  - cbn [total_weight length]. destruct (record_weight_bounds v) as [Hb Hd].
    split; [lia | now apply Z.divide_add_r].
Qed.

(** Whatever the shape of the section, a score the scan returns is the
    total weight of what it iterated over. *)
Lemma get_alerts_vuln_returns (self : ScanReport) (vuln_score : Z) :
  outcome (get_alerts_vuln self) = Ok vuln_score ->
  vuln_score = total_weight (vulnerabilities_of self).
Proof.
  unfold get_alerts_vuln, log, vulnerabilities_of. rewrite bind_emit.
  cbn [outcome fst getitem].
  destruct (lookup vuln_str_key_1 self) as [x |]; [| discriminate].
  rewrite bind_ret_l.
  destruct x; cbn [is_None iter]; try discriminate;
    try (rewrite bind_ret_l; intros H; now apply vuln_loop_returns in H).
  intros H. now inversion H.
Qed.

(** A score the vulnerability scan returns is never negative, is a multiple
    of 20, and is at most 2000 for each record of the section. *)
Theorem vulnerability_score_bounds (self : ScanReport) (vuln_score : Z) :
  outcome (get_alerts_vuln self) = Ok vuln_score ->
  0 <= vuln_score <= 2000 * Z.of_nat (length (vulnerabilities_of self))
  /\ (20 | vuln_score).
Proof.
  intros H. apply get_alerts_vuln_returns in H. subst vuln_score.
  apply total_weight_bounds.
Qed.

(** ** status_code *)

Lemma lor_code (v : Z) :
  (20 | v) ->
  Z.lor v 2 = v + 2 /\ Z.lor v 3 = v + 3 /\ Z.lor (Z.lor v 2) 3 = v + 3.
Proof.
  intros [k ->].
  assert (H3 : Z.land (k * 20) 3 = 0).
  { change 3 with (Z.ones 2). rewrite Z.land_ones by lia.
    replace (k * 20) with (k * 5 * 2 ^ 2) by lia. apply Z.mod_mul. lia. }
  assert (H2 : Z.land (k * 20) 2 = 0).
  { change 2 with (Z.land 3 2) at 1. now rewrite Z.land_assoc, H3. }
  assert (E2 : Z.lor (k * 20) 2 = k * 20 + 2)
    by now rewrite (Z.add_nocarry_lxor _ _ H2), (Z.lxor_lor _ _ H2).
  assert (E3 : Z.lor (k * 20) 3 = k * 20 + 3)
    by now rewrite (Z.add_nocarry_lxor _ _ H3), (Z.lxor_lor _ _ H3).
  repeat split; try assumption.
  now rewrite <- Z.lor_assoc.
Qed.

(** When the four scans return, [status_code] returns the vulnerability
    score plus 3 when a secret is present, plus 2 when malware is present
    without a secret: the bitwise or never disturbs the score, malware does
    not show next to a secret, and a misconfiguration adds nothing.  It is 0
    exactly for a report with a score of 0, no secret and no malware. *)
Theorem status_code_is_score_plus_detection_code (self : ScanReport)
    (vuln_code mal_code sec_code mcfg_code : Z) :
  outcome (get_alerts_vuln self) = Ok vuln_code ->
  outcome (get_alerts_malware self) = Ok mal_code ->
  outcome (get_alerts_secrets self) = Ok sec_code ->
  outcome (get_alerts_misconfig self) = Ok mcfg_code ->
  let secrets := any_of_type [type_secret] (detections_of self) in
  let malware := any_of_type [type_malware] (detections_of self) in
  outcome (ScanReport_status_code self) = Ok (vuln_code + detection_code secrets malware)
  /\ (vuln_code + detection_code secrets malware = 0
      <-> vuln_code = 0 /\ secrets = false /\ malware = false).
Proof.
  intros Hv Hm Hs Hc. cbv zeta.
  assert (Hscore : 0 <= vuln_code /\ (20 | vuln_code)).
  { rewrite (get_alerts_vuln_returns _ _ Hv).
    destruct (total_weight_bounds (vulnerabilities_of self)) as [[Hpos _] Hdiv].
    now split. }
  destruct Hscore as [Hpos Hdiv].
  destruct (lor_code _ Hdiv) as (E2 & E3 & E23).
  assert (Hmis : mcfg_code = 0).
  { rewrite get_alerts_misconfig_unfold in Hc. cbn [outcome fst] in Hc.
    destruct (scan_detections self _ misconfig_alert (value Success)) as [[c | e] t] eqn:E;
      [| discriminate].
    apply scan_detections_returns in E. inversion Hc; subst.
    destruct (existsb _ (detections_of self)); now inversion E. }
  split.
  - unfold ScanReport_status_code.
    rewrite outcome_bind, Hv, outcome_bind, Hm, outcome_bind, Hs, outcome_bind, Hc.
    apply get_alerts_malware_returns in Hm. apply get_alerts_secrets_returns in Hs.
    subst. cbn [outcome ret fst]. f_equal. rewrite Z.lor_0_r. unfold detection_code.
    destruct (any_of_type [type_secret] (detections_of self));
      destruct (any_of_type [type_malware] (detections_of self)); cbn [value].
    + exact E23.
    + now rewrite Z.lor_0_r.
    + now rewrite Z.lor_0_r.
    + rewrite !Z.lor_0_r. lia.
  - unfold detection_code.
    destruct (any_of_type [type_secret] (detections_of self));
      destruct (any_of_type [type_malware] (detections_of self)); cbn [value];
      (split; [intros H | intros (Hz & Hsec & Hmal); try discriminate; lia]);
      try (exfalso; lia).
    repeat split. lia.
Qed.

(** ** The first hit ends a scan *)

Lemma detection_loop_first_hit (hit : string -> bool) (alert : event) (code : Z)
    (before : list json) (detection : json) (rest : list json) (det_code : Z) :
  forallb detection_record before = true ->
  hits hit detection = true ->
  detection_loop hit alert code (before ++ detection :: rest) det_code
  = (Ok code, [alert]).
Proof.
  intros Hbefore Hhit.
  assert (Hrec : detection_record detection = true).
  { unfold hits, detection_type in Hhit. unfold detection_record.
    destruct detection as [| | | | | |members]; try discriminate.
    destruct (lookup "Detection" members) as [[| | | | | |d]|]; try discriminate.
    now destruct (lookup "Type" d) as [[| | | |s| |]|]. }
  induction before as [| d before' IH].
  - cbn [app detection_loop]. now rewrite (detection_step_record _ _ _ _ Hrec), Hhit.
  - cbn [forallb] in Hbefore. apply andb_prop in Hbefore as [Hd Hbefore'].
    cbn [app]. destruct (hits hit d) eqn:Hh.
    + cbn [detection_loop]. now rewrite (detection_step_record _ _ _ _ Hd), Hh.
    + rewrite detection_loop_skip by assumption. now apply IH.
Qed.

(** A scan ends at the first detection of its type: what follows it in the
    list is not looked at, so that nothing there, readable or not, changes
    what the scan returns and logs. *)
Theorem scan_ends_at_first_hit (self : ScanReport)
    (before : list json) (detection : json) (rest : list json) :
  lookup detect_str_key self = Some (JArr (before ++ detection :: rest)) ->
  forallb detection_record before = true ->
  (has_type [type_malware] detection = true ->
     get_alerts_malware self =
     (Ok (value Malware),
      [Log INFO "Searching for malware in scan report..." []; malware_alert])) /\
  (has_type [type_secret] detection = true ->
     get_alerts_secrets self =
     (Ok (value Secrets),
      [Log INFO "Searching for leaked secrets in scan report..." []; secrets_alert])) /\
  (has_type misconfig_types detection = true ->
     get_alerts_misconfig self =
     (Ok (value Success),
      [Log INFO "Searching for misconfigurations in scan report..." []; misconfig_alert])).
Proof.
  intros Hl Hbefore. split; [| split]; intros Hhit.
  - rewrite <- hits_has_type_1 in Hhit.
    rewrite get_alerts_malware_unfold. cbv zeta.
    now rewrite (scan_detections_list _ _ _ _ _ Hl),
      (detection_loop_first_hit _ _ _ _ _ _ _ Hbefore Hhit).
  - rewrite <- hits_has_type_1 in Hhit.
    rewrite get_alerts_secrets_unfold. cbv zeta.
    now rewrite (scan_detections_list _ _ _ _ _ Hl),
      (detection_loop_first_hit _ _ _ _ _ _ _ Hbefore Hhit).
  - unfold misconfig_types in Hhit. rewrite <- hits_has_type_2 in Hhit.
    rewrite get_alerts_misconfig_unfold. cbv zeta.
    now rewrite (scan_detections_list _ _ _ _ _ Hl),
      (detection_loop_first_hit _ _ _ _ _ _ _ Hbefore Hhit).
Qed.

(** ** What the vulnerability scan reports *)

(** One iteration on a record the scan can score: the weight added, and
    the one warning logged. *)
Lemma vuln_step_record_warning (vulnerability : json) (vuln_score : Z) :
  vulnerability_record vulnerability = true ->
  vuln_step vulnerability vuln_score =
  (Ok (vuln_score + record_weight vulnerability), [warning_of vulnerability]).
Proof.
  unfold vulnerability_record.
  destruct vulnerability as [| | | | | |members]; try discriminate.
  destruct (lookup "Vulnerability" members) as [[| | | | | |vuln]|] eqn:Hv;
    try discriminate.
  intros H. apply andb_prop in H as [H Hstr]. apply andb_prop in H as [Hp Hd].
  unfold warning_of, cve_of, affects_of, vuln_of, record_weight.
  unfold vuln_step. cbv zeta. cbn [getitem]. rewrite Hv.
  rewrite bind_ret_l, !get_mapping, !bind_ret_l.
  replace (match lookup "Details" vuln with Some v => v | None => JObj [] end)
    with (details_of (JObj members)) by (unfold details_of; now rewrite Hv).
  rewrite (resolve_severity_mappings _ Hd), bind_ret_l.
  destruct (severity_by_priority (details_of (JObj members))) as [| | | |s| |];
    try discriminate.
  destruct (lookup "Product" vuln) as [[| | | | | |product]|]; try discriminate;
    rewrite bind_ret_l, get_mapping, bind_ret_l; unfold log; rewrite bind_emit;
    cbn [str_lower]; rewrite !bind_ret_l; unfold outcome, effects, ret; cbn [fst snd];
    f_equal; f_equal; apply four_ifs.
Qed.

Lemma vuln_loop_records_warnings (vulnerabilities : list json) (vuln_score : Z) :
  forallb vulnerability_record vulnerabilities = true ->
  vuln_loop vulnerabilities vuln_score =
  (Ok (vuln_score + total_weight vulnerabilities), map warning_of vulnerabilities).
Proof.
  revert vuln_score. induction vulnerabilities as [| v rest IH]; intros vuln_score H.
  - cbn. unfold ret. do 2 f_equal. lia.
  - cbn [forallb] in H. apply andb_prop in H as [Hv Hrest].
    cbn [vuln_loop total_weight map]. rewrite (vuln_step_record_warning _ _ Hv).
    cbn [bind]. rewrite (IH _ Hrest). cbn [app]. do 2 f_equal. lia.
Qed.

(** On a list of records it can score, the vulnerability scan logs, after
    its opening record, exactly one warning for each record, in the order of
    the list: with the resolved severity, the CVE identifier ([CVE-unknown]
    when the record has none) and the package source of the product (the
    whole product when it names no source, an empty mapping when there is no
    product). *)
Theorem vulnerability_scan_warns_once_per_record (self : ScanReport)
    (vulnerabilities : list json) :
  lookup vuln_str_key_1 self = Some (JArr vulnerabilities) ->
  forallb vulnerability_record vulnerabilities = true ->
  get_alerts_vuln self =
  (Ok (total_weight vulnerabilities),
   Log INFO "Searching for vulnerabilities in scan report..." []
   :: map warning_of vulnerabilities).
Proof.
  intros Hl Hrec. unfold get_alerts_vuln, log. rewrite bind_emit.
  cbn [getitem]. rewrite Hl, bind_ret_l. cbn [is_None iter]. rewrite bind_ret_l.
  now rewrite (vuln_loop_records_warnings _ _ Hrec).
Qed.

(** ** The severity a record is scored with *)




(** ** The container steps *)

Lemma push_line_quiet (line : json) :
  quiet_line line = true -> push_line line = (Ok tt, [line_output line]).
Proof.
  unfold quiet_line, push_line, line_output.
  destruct line as [| | | | | |members]; try discriminate.
  cbn [contains]. rewrite bind_ret_l.
  destruct (lookup "error" members); [discriminate |]. intros _.
  rewrite !bind_ret_l. cbn [getitem get].
  destruct (lookup "status" members) as [status |]; [| reflexivity].
  rewrite !bind_ret_l.
  destruct (equals_str status "Pushing"); [| reflexivity].
  now destruct (lookup "progress" members), (lookup "progressDetails" members).
Qed.

Lemma push_line_error (members : list (string * json)) (message : string) :
  lookup "error" members = Some (JStr message) ->
  push_line (JObj members)
  = (Raise (APIError ("docker_push " ++ message)%string), []).
Proof.
  intros H. unfold push_line. cbn [contains getitem]. now rewrite H.
Qed.

Lemma push_loop_quiet (image_push : list json) (ending : option exn) :
  forallb quiet_line image_push = true ->
  push_loop image_push ending =
  (match ending with Some e => Raise e | None => Ok tt end,
   map line_output image_push).
Proof.
  induction image_push as [| line rest IH]; intros H.
  - now destruct ending.
  - cbn [forallb] in H. apply andb_prop in H as [Hline Hrest].
    cbn [push_loop map]. rewrite (push_line_quiet _ Hline), (IH Hrest).
    reflexivity.
Qed.

Lemma push_loop_error (before rest : list json) (members : list (string * json))
    (message : string) (ending : option exn) :
  forallb quiet_line before = true ->
  lookup "error" members = Some (JStr message) ->
  push_loop (before ++ JObj members :: rest) ending =
  (Raise (APIError ("docker_push " ++ message)%string),
   map line_output before).
Proof.
  intros Hbefore Herr. induction before as [| line before' IH].
  - cbn [app push_loop map]. now rewrite (push_line_error _ _ Herr).
  - cbn [forallb] in Hbefore. apply andb_prop in Hbefore as [Hline Hbefore'].
    cbn [app push_loop map]. rewrite (push_line_quiet _ Hline), (IH Hbefore').
    reflexivity.
Qed.

(** The stream of a push and the calls made to get it. *)
Lemma push_calls (c : Client) (self : ScanImage) :
  try_except (call (ImagesPush (image_ref self)) (images_push c))
    [(is_AttributeError, call (ClientPush (image_ref self)) (client_push c))]
  = (pushed c, tl (push_opening c self)).
Proof.
  unfold pushed, push_opening, falls_back. cbn [tl].
  destruct (images_push c) as [| [s | e]]; cbn.
  - now destruct (client_push c) as [| []].
  - reflexivity.
  - destruct e; try reflexivity. now destruct (client_push c) as [| []].
Qed.

(** A push reads the stream of [pushed], after its opening. *)
Lemma container_push_reads_stream (c : Client) (self : ScanImage) (s : stream) :
  pushed c = Ok s ->
  container_push c self =
  (outcome (push_loop (lines s) (broken s)),
   push_opening c self ++ effects (push_loop (lines s) (broken s))).
Proof.
  intros Hs. unfold container_push. fold (image_ref self). cbv zeta.
  rewrite push_calls, Hs. unfold log. rewrite bind_emit, bind_ok.
  reflexivity.
Qed.

(** The first line of the push stream with an [error] ends the push
    with the API error that carries it, when the lines before it are mappings
    without one: they have been reported, one output each, and nothing after
    the line is read, not even the exception the stream would end with.  The
    calls made on the client are those of [push_opening]: no call is recorded
    for a method that is missing. *)
Theorem push_raises_first_error (c : Client) (self : ScanImage) (s : stream)
    (before rest : list json) (members : list (string * json)) (message : string) :
  pushed c = Ok s ->
  lines s = before ++ JObj members :: rest ->
  forallb quiet_line before = true ->
  lookup "error" members = Some (JStr message) ->
  container_push c self =
  (Raise (APIError ("docker_push " ++ message)%string),
   push_opening c self ++ map line_output before).
Proof.
  intros Hp Hl Hbefore Herr.
  rewrite (container_push_reads_stream _ _ _ Hp), Hl.
  now rewrite (push_loop_error _ _ _ _ _ Hbefore Herr).
Qed.

(** A push whose stream holds only mappings without an [error] reads
    it to the end and reports every line, in order: the progress of a line
    whose status is "Pushing" is printed, any other status is logged, and a
    line without status is logged whole.  It succeeds unless the stream itself
    ends with an exception, which is then the one the push raises. *)
Theorem push_reads_quiet_stream_to_the_end (c : Client) (self : ScanImage) (s : stream) :
  pushed c = Ok s ->
  forallb quiet_line (lines s) = true ->
  container_push c self =
  (match broken s with Some e => Raise e | None => Ok tt end,
   push_opening c self ++ map line_output (lines s)).
Proof.
  intros Hp Hq.
  rewrite (container_push_reads_stream _ _ _ Hp).
  now rewrite (push_loop_quiet _ _ Hq).
Qed.

(** A push that gets no stream: [client.images.push] is missing or raised
    [AttributeError] and [client.push] is missing too, or the call that was
    made raised.  The push raises what [pushed] holds and reads nothing. *)
Lemma container_push_without_stream (c : Client) (self : ScanImage) (e : exn) :
  pushed c = Raise e ->
  container_push c self = (Raise e, push_opening c self).
Proof.
  intros He. unfold container_push. fold (image_ref self). cbv zeta.
  rewrite push_calls, He. unfold log. rewrite bind_emit. cbn.
  now rewrite ?app_nil_r.
Qed.

(** A login whose client answers with a mapping logs its [Status] and
    never runs podman; a mapping without [Status] makes the login raise
    [KeyError], again without running podman: only an answer that is not a
    mapping sends the login to the podman command line. *)
Theorem login_with_a_mapping_never_runs_podman (c : Client) (self : ScanImage)
    (members : list (string * json)) :
  login_answer c = Ok (JObj members) ->
  container_login c self =
  match lookup "Status" members with
  | Some status => (Ok tt, login_opening self ++ [LogObject INFO status])
  | None => (Raise (KeyError "Status"), login_opening self)
  end.
Proof.
  intros H. unfold container_login, login_opening. rewrite H.
  cbn. now destruct (lookup "Status" members).
Qed.

(** A login whose client answers with something that is not a mapping
    runs the podman command line, with the client secret among its
    arguments.  A return code other than 0 makes the login raise
    [CalledProcessError]: the [Exception] the code builds from the standard
    error is never raised, and the standard error is not reported.  With a
    return code of 0 the login logs the stripped standard output. *)
Theorem podman_login_fails_with_called_process_error (c : Client) (self : ScanImage)
    (answer : json) (returncode : Z) (stdout stderr : string) :
  login_answer c = Ok answer ->
  isinstance_dict answer = false ->
  podman_login c = Ok (returncode, stdout, stderr) ->
  container_login c self =
  (if returncode =? 0 then Ok tt
   else Raise (CalledProcessError returncode (podman_command self)),
   login_opening self ++ Run (podman_command self)
   :: if returncode =? 0 then [Log INFO (str_strip c stdout) []] else []).
Proof.
  intros Hlogin Hnot Hpodman.
  unfold container_login, login_opening, subprocess_run_check, podman_command.
  rewrite Hlogin, Hpodman.
  destruct answer; try discriminate;
    destruct (returncode =? 0) eqn:E; cbn; rewrite ?E; cbn; rewrite ?E; reflexivity.
Qed.

(** ** The further properties on sample runs *)

Import Samples.

(** A number served for token: the run sleeps once and ends with
    ScriptFailure. *)
Lemma poller_rejects_token_123 :
  exit_code (main (world token_number 0 secret_and_malware) (args 3))
  = value ScriptFailure.
Proof.
  refine (proj1 (proj2 (poller_rejects_token_that_is_not_a_string
                          (world token_number 0 secret_and_malware) image (JInt 123) 3
                          eq_refl _)
                   (args 3) eq_refl eq_refl eq_refl)).
  lia.
Defined.

(** A 200 without token: ScriptFailure through the clause for
    [Exception]. *)
Lemma token_answer_without_access_token_sample :
  effects (main (world token_missing 0 secret_and_malware) (args 3))
  = steps ++ token_request image ++ [Log ERROR "Unknown error" []].
Proof.
  exact (proj1 (proj2 (proj2 (token_answer_without_access_token
                                (world token_missing 0 secret_and_malware) image
                                [("token_type", JStr "bearer")]
                                eq_refl eq_refl eq_refl)
                         (args 3) eq_refl))).
Defined.

(** The token endpoint answers 401: the run ends with ScriptFailure; after
    its container steps it has made its one POST and logged the error. *)
Lemma authenticate_contract_denied :
  exit_code (main (world token_denied 0 secret_and_malware) (args 5))
  = value ScriptFailure /\
  effects (main (world token_denied 0 secret_and_malware) (args 5))
  = steps ++ token_request image ++ [Log ERROR "Unable to scan" []] /\
  io_effects (main (world token_denied 0 secret_and_malware) (args 5))
  = [HttpPost "https://api.crowdstrike.com/oauth2/token"
       [("client_id", "id"); ("client_secret", "secret")]
       [("Content-Type", "application/x-www-form-urlencoded")]].
Proof.
  refine (proj2 (proj2 (authenticate_contract
                          (world token_denied 0 secret_and_malware) image) _ _)
            (args 5) eq_refl); discriminate.
Defined.

Lemma world_of_examples_is_ordinary (token : Response json) (pending : nat)
    (r : ScanReport) :
  raises_only is_Exception (decoded token) -> ordinary (world token pending r).
Proof.
  intros Htoken. unfold ordinary, world_raises.
  split; [discriminate |]. split.
  { unfold client_raises, method_raises, stream_raises, raises_only. cbn.
    repeat match goal with |- _ /\ _ => split end;
      try (intros e H; now inversion H);
      intros s e H; inversion H; subst; discriminate. }
  unfold raises_only.
  cbn [runtime token_endpoint report_endpoint open_w int_of_str world].
  split; [exact Htoken |]. split; [| split; discriminate].
  intros k e. destruct (k <? pending)%nat; cbn [decoded]; intros H; now inversion H.
Qed.

(** A run of the examples ends with one of the five codes. *)
Lemma main_always_exits_with_a_status_sample :
  exists code,
    outcome (main (world token_ok 2 secret_and_malware) (args 5))
    = Raise (SystemExit code) /\ In code [0; 1; 2; 3; 10].
Proof.
  apply main_always_exits_with_a_status.
  apply world_of_examples_is_ordinary. discriminate.
Defined.

(** A secret next to a vulnerability record the scan cannot read: 10, not
    3. *)
Lemma failing_scan_hides_a_secret :
  exit_code (main (world token_ok 0 secret_and_unreadable) (args 1))
  = value ScriptFailure.
Proof.
  exact (failing_scan_is_script_failure
           (world token_ok 0 secret_and_unreadable) (args 1) secret_and_unreadable
           (KeyError "Vulnerability") eq_refl (or_introl eq_refl)).
Defined.

(** Malware and a threshold that does not read as an integer: Malware. *)
Lemma unreadable_threshold_with_malware :
  exit_code (main (world_without_threshold malware_only) (args 1)) = value Malware.
Proof.
  exact (unreadable_threshold
           (world_without_threshold malware_only) (args 1) malware_only
           ValueError 0 0 2 0
           eq_refl eq_refl eq_refl eq_refl eq_refl eq_refl eq_refl).
Defined.

(** The report of the examples written to its file before it is assessed. *)
Lemma report_file_of_sample_run :
  outcome (acquire (world token_ok 0 secret_and_malware) (args_with_file "report.json"))
  = Ok secret_and_malware /\
  In (FileWrite "report.json" (JObj secret_and_malware))
     (effects (acquire (world token_ok 0 secret_and_malware)
                 (args_with_file "report.json"))).
Proof.
  pose proof (proj1 (report_file_is_written_before_assessment
                       (world token_ok 0 secret_and_malware)
                       (args_with_file "report.json") image (JStr "token")
                       secret_and_malware "report.json"
                       eq_refl eq_refl eq_refl eq_refl
                       (fun E : "report.json" = "" => eq_ind "report.json"
                          (fun s => match s with EmptyString => False | _ => True end)
                          I "" E))
                    eq_refl) as H.
  rewrite H. split; [reflexivity |]. apply in_or_app. right. now left.
Defined.

(** The write of that run names the configured file. *)
Lemma run_writes_only_the_report_file_sample :
  json_report (args_with_file "report.json") = Some "report.json"
  /\ "report.json" <> "".
Proof.
  apply (run_writes_only_the_report_file
           (world token_ok 0 secret_and_malware) (args_with_file "report.json")
           "report.json" (JObj secret_and_malware)).
  cbn. repeat first [left; reflexivity | right].
Defined.

(** The score of the report of the examples. *)
Lemma vulnerability_score_bounds_sample :
  0 <= 500 <= 2000 * Z.of_nat (length (vulnerabilities_of secret_and_malware))
  /\ (20 | 500).
Proof.
  exact (vulnerability_score_bounds secret_and_malware 500 eq_refl).
Defined.

(** High, a secret and malware: [status_code] is 503. *)
Lemma status_code_of_sample :
  outcome (ScanReport_status_code secret_and_malware) = Ok 503.
Proof.
  exact (proj1 (status_code_is_score_plus_detection_code
                  secret_and_malware 500 2 3 0 eq_refl eq_refl eq_refl eq_refl)).
Defined.

(** A secret before a detection the scan cannot read: the secrets scan
    returns. *)
Lemma scan_ends_at_first_secret :
  get_alerts_secrets secret_then_unreadable =
  (Ok (value Secrets),
   [Log INFO "Searching for leaked secrets in scan report..." []; secrets_alert]).
Proof.
  exact (proj1 (proj2 (scan_ends_at_first_hit
                         secret_then_unreadable [JObj []] (detection (JStr "Secret"))
                         [detection (JInt 7)] eq_refl eq_refl))
               eq_refl).
Defined.

(** The warnings of a scan of two records. *)
Lemma vulnerability_warnings_of_sample :
  effects (get_alerts_vuln (report [high_v3_low_v2; low_with_product] [])) =
  [Log INFO "Searching for vulnerabilities in scan report..." [];
   Log WARNING "%-8s %-16s Vulnerability detected affecting %s"
     [JStr "HIGH"; JStr "CVE-2021-0001"; JObj []];
   Log WARNING "%-8s %-16s Vulnerability detected affecting %s"
     [JStr "low"; JStr "CVE-unknown"; JStr "openssl 1.1.1"]].
Proof.
  rewrite (vulnerability_scan_warns_once_per_record
             (report [high_v3_low_v2; low_with_product] [])
             [high_v3_low_v2; low_with_product] eq_refl eq_refl).
  reflexivity.
Defined.

(** A push that is denied at its third line, on a podman client that has
    no [client.images.push]: only [client.push] is called. *)
Lemma push_raises_first_error_sample :
  container_push (podman 0 failing_push) image =
  (Raise (APIError "docker_push denied"),
   [Log INFO "Performing container push to %s"
      [JStr "container-upload.us-1.crowdstrike.com/myapp:v1"];
    ClientPush "container-upload.us-1.crowdstrike.com/myapp:v1";
    Print "Pushing {}" [JArr [JStr "[=>  ]"; JNull]] carriage_return;
    Log INFO "Docker: %s" [JStr "Preparing"]]).
Proof.
  exact (push_raises_first_error (podman 0 failing_push) image failing_push
           [JObj [("status", JStr "Pushing"); ("progress", JStr "[=>  ]")];
            JObj [("status", JStr "Preparing")]]
           [JObj [("status", JStr "Pushed")]]
           [("error", JStr "denied"); ("status", JStr "Pushing")] "denied"
           eq_refl eq_refl eq_refl eq_refl).
Defined.

(** A push that goes through, on a docker client. *)
Lemma push_reads_quiet_stream_sample :
  container_push (docker quiet_push) image =
  (Ok tt,
   [Log INFO "Performing container push to %s"
      [JStr "container-upload.us-1.crowdstrike.com/myapp:v1"];
    ImagesPush "container-upload.us-1.crowdstrike.com/myapp:v1";
    Print "Pushing {}" [JArr [JStr "[=>  ]"; JNull]] carriage_return;
    LogObject DEBUG (JObj [("aux", JObj [])]);
    Log INFO "Docker: %s" [JStr "Pushed"]]).
Proof.
  exact (push_reads_quiet_stream_to_the_end (docker quiet_push) image quiet_push
           eq_refl eq_refl).
Defined.

(** A docker login. *)
Lemma login_with_a_mapping_sample :
  container_login (docker quiet_push) image =
  (Ok tt, login_opening image ++ [LogObject INFO (JStr "Login Succeeded")]).
Proof.
  exact (login_with_a_mapping_never_runs_podman (docker quiet_push) image
           [("Status", JStr "Login Succeeded")] eq_refl).
Defined.

(** A podman login that is refused. *)
Lemma podman_login_refused :
  outcome (container_login (podman 125 quiet_push) image)
  = Raise (CalledProcessError 125 (podman_command image)).
Proof.
  rewrite (podman_login_fails_with_called_process_error
             (podman 125 quiet_push) image JNull 125 "Login Succeeded!" "unauthorized"
             eq_refl eq_refl eq_refl).
  reflexivity.
Defined.


